(** * Two Dash dashboards: automobile sales and SpaceX launches

    A shallow embedding of [scripts/AutomobileSalesDashboard.py] and
    [scripts/SpaceXLaunchDashboard.py].

    - A pandas [DataFrame] read from the CSV is a list of typed row records,
      in file order.  Integer columns are [Z]; float columns are rationals
      [Q] (rounding is not modelled, and no statement below depends on the
      arithmetic of the reducers: they are only ever applied to the list of
      values of a group, in row order).  Every cell is present.
    - Frames handed to plotly are columnar: a list of named series of cells.
    - A Dash property value (what a dropdown or slider sends to a callback)
      is [None], an integer or a string.
    - The module-level globals [df] and [app.layout] form the state of the
      server process; a callback is a computation in a state monad over
      it.  The browser page holds the current control values and the
      callback outputs; an input change fires the callbacks that list the
      control as an [Input]. *)

From Stdlib Require Import List String Ascii ZArith QArith Bool Lia.
From Stdlib Require Import Permutation Sorted DecimalString.
From Stdlib Require DecimalPos DecimalZ.
Import ListNotations.

Set Warnings "-register-all".

Local Open Scope string_scope.
Local Open Scope list_scope.
Local Open Scope Z_scope.

(** ** Python values *)

(** What a Dash control sends as its [value]. *)
Inductive value : Type :=
| VNone
| VInt (z : Z)
| VStr (s : string).

(** Python [==] on these values. *)
Definition value_eqb (a b : value) : bool :=
  match a, b with
  | VNone, VNone => true
  | VInt x, VInt y => Z.eqb x y
  | VStr s, VStr t => String.eqb s t
  | _, _ => false
  end.

(** [str(z)] for an integer. *)
Definition str_Z (z : Z) : string := NilZero.string_of_int (Z.to_int z).

(** What an f-string prints for [{v}]. *)
Definition format_value (v : value) : string :=
  match v with
  | VNone => "None"
  | VInt z => str_Z z
  | VStr s => s
  end.

(** A cell of a frame handed to plotly. *)
Inductive cell : Type :=
| CInt (z : Z)
| CNum (q : Q)
| CStr (s : string).

(** Python [+] on numeric cells: integers stay integers, a float makes the
    sum a float.  Strings are never added by the code modelled here (the
    operand is returned). *)
Definition cell_add (a b : cell) : cell :=
  match a, b with
  | CInt x, CInt y => CInt (x + y)
  | CInt x, CNum y => CNum (inject_Z x + y)
  | CNum x, CInt y => CNum (x + inject_Z y)
  | CNum x, CNum y => CNum (x + y)
  | _, _ => a
  end.

Definition cell_eqb (a b : cell) : bool :=
  match a, b with
  | CInt x, CInt y => Z.eqb x y
  | CNum x, CNum y => Qeq_bool x y
  | CStr s, CStr t => String.eqb s t
  | _, _ => false
  end.

(** ** A state monad for the server process *)

Definition State (S A : Type) : Type := S -> A * S.

Definition ret {S A : Type} (a : A) : State S A := fun s => (a, s).

Definition bind {S A B : Type} (m : State S A) (f : A -> State S B) : State S B :=
  fun s => let (a, s') := m s in f a s'.

Definition gets {S A : Type} (f : S -> A) : State S A := fun s => (f s, s).

Definition modify {S : Type} (f : S -> S) : State S unit := fun s => (tt, f s).

Definition eval {S A : Type} (m : State S A) (s : S) : A := fst (m s).

Definition exec {S A : Type} (m : State S A) (s : S) : S := snd (m s).

(** A computation that leaves the state of the server as it found it. *)
Definition read_only {S A : Type} (m : State S A) : Prop :=
  forall s, exec m s = s.

Notation "x <- m ;; k" := (bind m (fun x => k))
  (at level 61, m at next level, right associativity).

Notation "m ;; k" := (bind m (fun _ => k))
  (at level 61, right associativity).

(** ** pandas: group keys, groupby, reducers *)

(** Group keys are compared for equality (factorisation) and for order
    (groupby sorts its keys). *)
Class Key (K : Type) : Type := {
  key_eqb : K -> K -> bool;
  key_leb : K -> K -> bool
}.

#[export] Instance Key_Z : Key Z :=
  {| key_eqb := Z.eqb; key_leb := Z.leb |}.

#[export] Instance Key_string : Key string :=
  {| key_eqb := String.eqb; key_leb := String.leb |}.

(** Keys of a groupby over a list of columns: lexicographic order. *)
#[export] Instance Key_pair {A B : Type} `{Key A} `{Key B} : Key (A * B) :=
  {| key_eqb := fun p q => key_eqb (fst p) (fst q) && key_eqb (snd p) (snd q);
     key_leb := fun p q =>
       if key_eqb (fst p) (fst q) then key_leb (snd p) (snd q)
       else key_leb (fst p) (fst q) |}.

Section GroupBy.

Context {R K V : Type} `{Key K}.

(** One step of the single pass over the rows: the value joins the group of
    its key, at the end; an unseen key opens a new group. *)
Fixpoint add_to_group (k : K) (v : V) (gs : list (K * list V)) : list (K * list V) :=
  match gs with
  | [] => [(k, [v])]
  | (k', vs) :: rest =>
      if key_eqb k k' then (k', vs ++ [v]) :: rest
      else (k', vs) :: add_to_group k v rest
  end.

(** The single pass, from the groups [gs] found so far. *)
Definition fold_groups (key : R -> K) (col : R -> V) (rows : list R)
  (gs : list (K * list V)) : list (K * list V) :=
  fold_left (fun gs r => add_to_group (key r) (col r) gs) rows gs.

(** Groups in order of first appearance, each with its values in row order. *)
Definition factorize (key : R -> K) (col : R -> V) (rows : list R) : list (K * list V) :=
  fold_groups key col rows [].

Fixpoint insert_group (g : K * list V) (gs : list (K * list V)) : list (K * list V) :=
  match gs with
  | [] => [g]
  | g' :: rest =>
      if key_leb (fst g) (fst g') then g :: g' :: rest
      else g' :: insert_group g rest
  end.

Definition sort_groups (gs : list (K * list V)) : list (K * list V) :=
  fold_right insert_group [] gs.

(** [rows.groupby(key)[col]]: the groups, keys sorted (pandas' default
    [sort=True]). *)
Definition groupby (key : R -> K) (col : R -> V) (rows : list R) : list (K * list V) :=
  sort_groups (factorize key col rows).

(** Applying a reducer to every group. *)
Definition aggregate {W : Type} (f : list V -> W) (gs : list (K * list V)) : list (K * W) :=
  map (fun g => (fst g, f (snd g))) gs.

(** The values of the group of [k] (empty when there is none). *)
Fixpoint group_values (k : K) (gs : list (K * list V)) : list V :=
  match gs with
  | [] => []
  | (k', vs) :: rest => if key_eqb k k' then vs else group_values k rest
  end.

End GroupBy.

(** [.sum()] of a float series. *)
Definition series_sum (vs : list Q) : Q := fold_left Qplus vs (0 # 1)%Q.

(** [.mean()] of a float series (groups are never empty). *)
Definition series_mean (vs : list Q) : Q :=
  (series_sum vs / inject_Z (Z.of_nat (List.length vs)))%Q.

(** [.size()] of a group. *)
Definition series_size {V : Type} (vs : list V) : Z := Z.of_nat (List.length vs).

(** [.max()] / [.min()] of a float series; [None] stands for the NaN that
    pandas returns on an empty series. *)
Definition series_max (vs : list Q) : option Q :=
  match vs with
  | [] => None
  | v :: rest => Some (fold_left (fun m x => if Qle_bool m x then x else m) rest v)
  end.

Definition series_min (vs : list Q) : option Q :=
  match vs with
  | [] => None
  | v :: rest => Some (fold_left (fun m x => if Qle_bool x m then x else m) rest v)
  end.

(** ** plotly express *)

(** A columnar frame: named series of equal length. *)
Definition frame : Type := list (string * list cell).

Fixpoint column (name : string) (f : frame) : option (list cell) :=
  match f with
  | [] => None
  | (n, s) :: rest => if String.eqb name n then Some s else column name rest
  end.

Inductive chart : Type := Line | Bar | Pie | Scatter.

(** The layout properties that the code sets. *)
Record fig_layout : Type := {
  font_family : option string;
  title_font_size : option Z;
  xaxis_title_font_size : option Z;
  yaxis_title_font_size : option Z;
  title_x : option Q;
  barmode : option string
}.

Definition empty_layout : fig_layout :=
  {| font_family := None; title_font_size := None;
     xaxis_title_font_size := None; yaxis_title_font_size := None;
     title_x := None; barmode := None |}.

(** A figure as built by [px.line], [px.bar], [px.pie] and [px.scatter]:
    the frame and the columns the call names. *)
Record figure : Type := {
  fig_chart : chart;
  fig_frame : frame;
  fig_x : option string;
  fig_y : list string;
  fig_names : option string;
  fig_values : option string;
  fig_color : option string;
  fig_title : string;
  fig_layout_of : fig_layout
}.

Definition px_line (f : frame) (x y title : string) : figure :=
  {| fig_chart := Line; fig_frame := f; fig_x := Some x; fig_y := [y];
     fig_names := None; fig_values := None; fig_color := None;
     fig_title := title; fig_layout_of := empty_layout |}.

Definition px_bar (f : frame) (x : string) (y : list string)
  (bm : option string) (title : string) : figure :=
  {| fig_chart := Bar; fig_frame := f; fig_x := Some x; fig_y := y;
     fig_names := None; fig_values := None; fig_color := None;
     fig_title := title;
     fig_layout_of :=
       {| font_family := None; title_font_size := None;
          xaxis_title_font_size := None; yaxis_title_font_size := None;
          title_x := None; barmode := bm |} |}.

Definition px_pie (f : frame) (values names title : string) : figure :=
  {| fig_chart := Pie; fig_frame := f; fig_x := None; fig_y := [];
     fig_names := Some names; fig_values := Some values; fig_color := None;
     fig_title := title; fig_layout_of := empty_layout |}.

Definition px_scatter (f : frame) (x y color title : string) : figure :=
  {| fig_chart := Scatter; fig_frame := f; fig_x := Some x; fig_y := [y];
     fig_names := None; fig_values := None; fig_color := Some color;
     fig_title := title; fig_layout_of := empty_layout |}.

Definition with_layout (g : fig_layout -> fig_layout) (fig : figure) : figure :=
  {| fig_chart := fig_chart fig; fig_frame := fig_frame fig;
     fig_x := fig_x fig; fig_y := fig_y fig;
     fig_names := fig_names fig; fig_values := fig_values fig;
     fig_color := fig_color fig; fig_title := fig_title fig;
     fig_layout_of := g (fig_layout_of fig) |}.

(** What a pie trace draws: one slice per distinct label, in order of first
    appearance, whose size is the sum of the values carrying that label. *)
Fixpoint add_to_slice (l v : cell) (ss : list (cell * cell)) : list (cell * cell) :=
  match ss with
  | [] => [(l, v)]
  | (l', t) :: rest =>
      if cell_eqb l l' then (l', cell_add t v) :: rest
      else (l', t) :: add_to_slice l v rest
  end.

Definition slices_of (labels values : list cell) : list (cell * cell) :=
  fold_left (fun ss lv => add_to_slice (fst lv) (snd lv) ss) (combine labels values) [].

Definition pie_slices (fig : figure) : option (list (cell * cell)) :=
  match fig_names fig, fig_values fig with
  | Some n, Some v =>
      match column n (fig_frame fig), column v (fig_frame fig) with
      | Some ls, Some vs => Some (slices_of ls vs)
      | _, _ => None
      end
  | _, _ => None
  end.

(** Slices with labels of one type and integer sizes, as cells. *)
Definition label_slices {L : Type} (inj : L -> cell) (t : list (L * Z))
  : list (cell * cell) :=
  map (fun e => (inj (fst e), CInt (snd e))) t.

(** The sizes of the slices added up. *)
Definition slices_total (ss : list (cell * cell)) : cell :=
  fold_left cell_add (map snd ss) (CInt 0).

(** ** Dash components *)

Definition style : Type := list (string * value).

Record dropdown : Type := {
  dd_id : string;
  dd_options : list (string * value);
  dd_value : value;
  dd_disabled : bool;
  dd_placeholder : option string;
  dd_searchable : bool;
  dd_style : style
}.

Record range_slider : Type := {
  rs_id : string;
  rs_min : Q;
  rs_max : Q;
  rs_step : Q;
  rs_marks : list (Z * string);
  rs_value : list (option Q)
}.

(** The layout tree; [className] and other purely presentational
    properties beyond [style] are left out. *)
Inductive component : Type :=
| H1 (text : string) (st : style)
| P (text : string)
| Br
| Div (id : option string) (children : list component) (st : style)
| Dropdown (d : dropdown)
| RangeSlider (s : range_slider)
| Graph (id : option string) (fig : option figure).

(** All range sliders / dropdowns declared in a layout tree. *)
Fixpoint sliders (c : component) : list range_slider :=
  match c with
  | RangeSlider s => [s]
  | Div _ cs _ => flat_map sliders cs
  | _ => []
  end.

Fixpoint dropdowns (c : component) : list dropdown :=
  match c with
  | Dropdown d => [d]
  | Div _ cs _ => flat_map dropdowns cs
  | _ => []
  end.

(** The figures shown in a tree of components, left to right. *)
Fixpoint figures (c : component) : list figure :=
  match c with
  | Graph _ (Some fig) => [fig]
  | Div _ cs _ => flat_map figures cs
  | _ => []
  end.

(** ** scripts/AutomobileSalesDashboard.py *)

Module AutomobileSales.

(** One row of [historical_automobile_sales.csv]. *)
Record row : Type := {
  Year : Z;
  Month : string;
  Automobile_Sales : Q;
  Vehicle_Type : string;
  Advertising_Expenditure : Q;
  Recession : Z;
  unemployment_rate : Q;
  GDP : Q
}.

Definition DataFrame : Type := list row.

(** [df[(df['Year'] >= 1980) & (df['Year'] <= 2013)]] *)
Definition filter_years (csv : DataFrame) : DataFrame :=
  filter (fun r => (1980 <=? Year r) && (Year r <=? 2013)) csv.

(** [sorted(df['Year'].unique())] *)
Definition sorted_years (d : DataFrame) : list Z :=
  map fst (groupby Year (fun _ => tt) d).

(** [year_options] *)
Definition year_options (d : DataFrame) : list (string * value) :=
  map (fun y => (str_Z y, VInt y)) (sorted_years d).

Definition report_type_dropdown : dropdown :=
  {| dd_id := "report-type";
     dd_options := [("Yearly Statistics", VStr "yearly");
                    ("Recession Period Statistics", VStr "recession")];
     dd_value := VStr "yearly";
     dd_disabled := false;
     dd_placeholder := None;
     dd_searchable := true;
     dd_style := [("width", VStr "100%"); ("marginBottom", VStr "10px")] |}.

Definition year_dropdown (d : DataFrame) : dropdown :=
  {| dd_id := "year-dropdown";
     dd_options := year_options d;
     dd_value := VInt 1980;
     dd_disabled := false;
     dd_placeholder := None;
     dd_searchable := true;
     dd_style := [("width", VStr "100%")] |}.

Definition left_cell : style :=
  [("width", VStr "48%"); ("display", VStr "inline-block")].

Definition right_cell : style :=
  [("width", VStr "48%"); ("float", VStr "right"); ("display", VStr "inline-block")].

(** [app.layout] *)
Definition layout (d : DataFrame) : component :=
  Div None
    [ H1 "Automobile Sales Dashboard"
         [("textAlign", VStr "center"); ("fontFamily", VStr "Segoe UI");
          ("marginBottom", VStr "30px")];
      Div None
        [ Div None [Dropdown report_type_dropdown] left_cell;
          Div None [Dropdown (year_dropdown d)] right_cell ]
        [("width", VStr "80%"); ("margin", VStr "auto"); ("marginBottom", VStr "30px")];
      Div (Some "output-container") []
        [("width", VStr "80%"); ("margin", VStr "auto")] ]
    [("fontFamily", VStr "Segoe UI"); ("padding", VStr "20px")].

(** The module-level globals of the running process. *)
Record server : Type := {
  df : DataFrame;
  app_layout : component
}.

(** The globals before the module body has run. *)
Definition blank : server := {| df := []; app_layout := Div None [] [] |}.

(** Assignments to the globals. *)
Definition set_df (d : DataFrame) : State server unit :=
  modify (fun s => {| df := d; app_layout := app_layout s |}).

Definition set_layout (c : component) : State server unit :=
  modify (fun s => {| df := df s; app_layout := c |}).

(** The module body, run once at import: [df = pd.read_csv(data)], then
    [df = df[...]] keeps the years 1980..2013, then [app.layout = ...]. *)
Definition module_body (csv : DataFrame) : State server unit :=
  set_df csv ;;
  d <- gets df ;;
  set_df (filter_years d) ;;
  d <- gets df ;;
  set_layout (layout d).

(** The process after start-up on a given CSV. *)
Definition startup (csv : DataFrame) : server := exec (module_body csv) blank.

(** [rows[rows['Year'] == selected_year]] *)
Definition year_rows (rows : DataFrame) (selected_year : value) : DataFrame :=
  filter (fun r => value_eqb (VInt (Year r)) selected_year) rows.

(** [df[df['Recession'] == 1]] *)
Definition recession_df (rows : DataFrame) : DataFrame :=
  filter (fun r => Recession r =? 1) rows.

(** [rows.groupby('Year')['Automobile_Sales'].mean()] *)
Definition yearly_sales (rows : DataFrame) : list (Z * Q) :=
  aggregate series_mean (groupby Year Automobile_Sales rows).

(** [rows.groupby('Month')['Automobile_Sales'].sum()] *)
Definition monthly_sales (rows : DataFrame) : list (string * Q) :=
  aggregate series_sum (groupby Month Automobile_Sales rows).

(** [rows.groupby('Vehicle_Type')['Automobile_Sales'].mean()] *)
Definition avg_sales_by_type (rows : DataFrame) : list (string * Q) :=
  aggregate series_mean (groupby Vehicle_Type Automobile_Sales rows).

(** [rows.groupby('Vehicle_Type')['Advertising_Expenditure'].sum()] *)
Definition ad_exp_by_type (rows : DataFrame) : list (string * Q) :=
  aggregate series_sum (groupby Vehicle_Type Advertising_Expenditure rows).

(** [rows.groupby('Vehicle_Type').agg({'unemployment_rate': 'mean',
    'Automobile_Sales': 'mean'})] *)
Definition avg_unemp_sales (rows : DataFrame) : list (string * (Q * Q)) :=
  aggregate (fun vs => (series_mean (map fst vs), series_mean (map snd vs)))
    (groupby Vehicle_Type (fun r => (unemployment_rate r, Automobile_Sales r)) rows).

(** [.reset_index()] of a grouped series / of a grouped pair of series. *)
Definition reset_index {K : Type} (kname : string) (kcell : K -> cell)
  (vname : string) (t : list (K * Q)) : frame :=
  [ (kname, map (fun e => kcell (fst e)) t);
    (vname, map (fun e => CNum (snd e)) t) ].

Definition reset_index2 {K : Type} (kname : string) (kcell : K -> cell)
  (vname wname : string) (t : list (K * (Q * Q))) : frame :=
  [ (kname, map (fun e => kcell (fst e)) t);
    (vname, map (fun e => CNum (fst (snd e))) t);
    (wname, map (fun e => CNum (snd (snd e))) t) ].

(** The [fig.update_layout(...)] of the styling loop. *)
Definition restyle (fig : figure) : figure :=
  with_layout (fun l =>
    {| font_family := Some "Segoe UI";
       title_font_size := Some 20;
       xaxis_title_font_size := Some 14;
       yaxis_title_font_size := Some 14;
       title_x := Some (1 # 2)%Q;
       barmode := barmode l |}) fig.

(** The 2x2 grid. *)
Definition graph_layout (fig1 fig2 fig3 fig4 : figure) : component :=
  Div None
    [ Div None [Graph None (Some fig1)] left_cell;
      Div None [Graph None (Some fig2)] right_cell;
      Div None [Graph None (Some fig3)] left_cell;
      Div None [Graph None (Some fig4)] right_cell ]
    [].

Definition update_year_dropdown (report_type : value) : State server bool :=
  if value_eqb report_type (VStr "yearly") then ret false else ret true.

Definition update_output (report_type selected_year : value) : State server component :=
  d <- gets df ;;
  if value_eqb report_type (VStr "yearly") then
    let fig1 :=
      px_line (reset_index "Year" CInt "Automobile_Sales" (yearly_sales d))
        "Year" "Automobile_Sales"
        "Average Automobile Sales per Year (1980-2013)" in
    let fig2 :=
      px_line (reset_index "Month" CStr "Automobile_Sales"
                 (monthly_sales (year_rows d selected_year)))
        "Month" "Automobile_Sales"
        ("Total Monthly Automobile Sales in " ++ format_value selected_year)%string in
    let fig3 :=
      px_bar (reset_index "Vehicle_Type" CStr "Automobile_Sales"
                (avg_sales_by_type (year_rows d selected_year)))
        "Vehicle_Type" ["Automobile_Sales"] None
        ("Average Vehicles Sold by Vehicle Type in " ++ format_value selected_year)%string in
    let fig4 :=
      px_pie (reset_index "Vehicle_Type" CStr "Advertising_Expenditure"
                (ad_exp_by_type (year_rows d selected_year)))
        "Advertising_Expenditure" "Vehicle_Type"
        ("Total Advertising Expenditure by Vehicle Type in " ++ format_value selected_year)%string in
    ret (graph_layout (restyle fig1) (restyle fig2) (restyle fig3) (restyle fig4))
  else
    let rec_df := recession_df d in
    let fig1 :=
      px_line (reset_index "Year" CInt "Automobile_Sales" (yearly_sales rec_df))
        "Year" "Automobile_Sales"
        "Average Automobile Sales During Recession Periods" in
    let fig2 :=
      px_bar (reset_index "Vehicle_Type" CStr "Automobile_Sales" (avg_sales_by_type rec_df))
        "Vehicle_Type" ["Automobile_Sales"] None
        "Average Vehicles Sold by Vehicle Type During Recessions" in
    let fig3 :=
      px_pie (reset_index "Vehicle_Type" CStr "Advertising_Expenditure" (ad_exp_by_type rec_df))
        "Advertising_Expenditure" "Vehicle_Type"
        "Advertising Expenditure Share by Vehicle Type During Recessions" in
    let fig4 :=
      px_bar (reset_index2 "Vehicle_Type" CStr "unemployment_rate" "Automobile_Sales"
                (avg_unemp_sales rec_df))
        "Vehicle_Type" ["Automobile_Sales"; "unemployment_rate"] (Some "group")
        "Effect of Unemployment Rate on Vehicle Sales During Recessions" in
    ret (graph_layout (restyle fig1) (restyle fig2) (restyle fig3) (restyle fig4)).

(** The page in the browser: the two control values (callback inputs) and
    the two properties that callbacks write. *)
Record page : Type := {
  report_type : value;
  selected_year : value;
  year_disabled : bool;
  output_children : option component
}.

(** The page as declared, before any callback has run. *)
Definition declared_page (d : DataFrame) : page :=
  {| report_type := dd_value report_type_dropdown;
     selected_year := dd_value (year_dropdown d);
     year_disabled := dd_disabled (year_dropdown d);
     output_children := None |}.

(** Both callbacks, fired with the current inputs. *)
Definition refresh (p : page) : State server page :=
  dis <- update_year_dropdown (report_type p) ;;
  out <- update_output (report_type p) (selected_year p) ;;
  ret {| report_type := report_type p; selected_year := selected_year p;
         year_disabled := dis; output_children := Some out |}.

Inductive event : Type :=
| ReportTypeChanged (v : value)
| YearChanged (v : value).

(** An input change fires every callback that lists the control as an
    [Input]: the report type feeds both callbacks, the year only
    [update_output]. *)
Definition on_event (e : event) (p : page) : State server page :=
  match e with
  | ReportTypeChanged v =>
      refresh {| report_type := v; selected_year := selected_year p;
                 year_disabled := year_disabled p;
                 output_children := output_children p |}
  | YearChanged y =>
      out <- update_output (report_type p) y ;;
      ret {| report_type := report_type p; selected_year := y;
             year_disabled := year_disabled p; output_children := Some out |}
  end.

Fixpoint run (es : list event) (p : page) : State server page :=
  match es with
  | [] => ret p
  | e :: rest => p' <- on_event e p ;; run rest p'
  end.

(** Opening the page fires every callback once, then the events follow. *)
Definition session (es : list event) : State server page :=
  d <- gets df ;;
  p <- refresh (declared_page d) ;;
  run es p.

(** Rows equal in every column but GDP. *)
Definition same_but_GDP (r r' : row) : Prop :=
  Year r = Year r' /\ Month r = Month r' /\
  Automobile_Sales r = Automobile_Sales r' /\
  Vehicle_Type r = Vehicle_Type r' /\
  Advertising_Expenditure r = Advertising_Expenditure r' /\
  Recession r = Recession r' /\
  unemployment_rate r = unemployment_rate r'.

(** A fixture with mixed flags, and the same rows without the
    non-recession ones. *)
Definition jan80 : row :=
  {| Year := 1980; Month := "Jan"; Automobile_Sales := (456 # 1)%Q;
     Vehicle_Type := "Sports"; Advertising_Expenditure := (1558 # 1)%Q;
     Recession := 1; unemployment_rate := (54 # 10)%Q; GDP := (60 # 1)%Q |}.

Definition feb80 : row :=
  {| Year := 1980; Month := "Feb"; Automobile_Sales := (555 # 1)%Q;
     Vehicle_Type := "Sports"; Advertising_Expenditure := (3048 # 1)%Q;
     Recession := 0; unemployment_rate := (48 # 10)%Q; GDP := (45 # 1)%Q |}.

Definition jan81 : row :=
  {| Year := 1981; Month := "Jan"; Automobile_Sales := (620 # 1)%Q;
     Vehicle_Type := "Supperminicar"; Advertising_Expenditure := (3137 # 1)%Q;
     Recession := 1; unemployment_rate := (34 # 10)%Q; GDP := (52 # 1)%Q |}.

Definition mar82 : row :=
  {| Year := 1982; Month := "Mar"; Automobile_Sales := (702 # 1)%Q;
     Vehicle_Type := "Sports"; Advertising_Expenditure := (1653 # 1)%Q;
     Recession := 0; unemployment_rate := (42 # 10)%Q; GDP := (45 # 1)%Q |}.

Definition mixed_fixture : DataFrame := [jan80; feb80; jan81; mar82].

Definition recession_fixture : DataFrame := [jan80; jan81].

(** The same row with another GDP. *)
Definition with_GDP (g : Q) (r : row) : row :=
  {| Year := Year r; Month := Month r; Automobile_Sales := Automobile_Sales r;
     Vehicle_Type := Vehicle_Type r;
     Advertising_Expenditure := Advertising_Expenditure r;
     Recession := Recession r; unemployment_rate := unemployment_rate r;
     GDP := g |}.

End AutomobileSales.

(** ** scripts/SpaceXLaunchDashboard.py *)

Module SpaceXLaunch.

(** One row of [spacex_launch_dash.csv], after the rename of
    ['Payload Mass (kg)'] to ['PayloadMass']. *)
Record row : Type := {
  Launch_Site : string;
  PayloadMass : Q;
  class : Z;
  Booster_Version_Category : string
}.

Definition DataFrame : Type := list row.

(** The frame as plotly receives it. *)
Definition to_frame (rows : DataFrame) : frame :=
  [ ("Launch Site", map (fun r => CStr (Launch_Site r)) rows);
    ("PayloadMass", map (fun r => CNum (PayloadMass r)) rows);
    ("class", map (fun r => CInt (class r)) rows);
    ("Booster Version Category", map (fun r => CStr (Booster_Version_Category r)) rows) ].

Definition site_dropdown : dropdown :=
  {| dd_id := "site-dropdown";
     dd_options := [("All Sites", VStr "ALL");
                    ("CCAFS LC-40", VStr "CCAFS LC-40");
                    ("VAFB SLC-4E", VStr "VAFB SLC-4E");
                    ("KSC LC-39A", VStr "KSC LC-39A");
                    ("CCAFS SLC-40", VStr "CCAFS SLC-40")];
     dd_value := VStr "ALL";
     dd_disabled := false;
     dd_placeholder := Some "Select a Launch Site here";
     dd_searchable := true;
     dd_style := [] |}.

Definition payload_slider (min_payload max_payload : option Q) : range_slider :=
  {| rs_id := "payload-slider";
     rs_min := inject_Z 0;
     rs_max := inject_Z 10000;
     rs_step := inject_Z 1000;
     rs_marks := [(0, "0"); (2500, "2500"); (5000, "5000"); (7500, "7500");
                  (10000, "10000")];
     rs_value := [min_payload; max_payload] |}.

(** [app.layout] *)
Definition layout (min_payload max_payload : option Q) : component :=
  Div None
    [ H1 "SpaceX Launch Records Dashboard"
         [("textAlign", VStr "center"); ("color", VStr "#503D36");
          ("font-size", VInt 40); ("fontFamily", VStr "Segoe UI")];
      Dropdown site_dropdown;
      Br;
      Div None [Graph (Some "success-pie-chart") None] [];
      Br;
      P "Payload range (Kg):";
      RangeSlider (payload_slider min_payload max_payload);
      Div None [Graph (Some "success-payload-scatter-chart") None] [] ]
    [("fontFamily", VStr "Segoe UI")].

(** The module-level globals of the running process. *)
Record server : Type := {
  df : DataFrame;
  max_payload : option Q;
  min_payload : option Q;
  app_layout : component
}.

(** The globals before the module body has run. *)
Definition blank : server :=
  {| df := []; max_payload := None; min_payload := None;
     app_layout := Div None [] [] |}.

(** Assignments to the globals. *)
Definition set_df (d : DataFrame) : State server unit :=
  modify (fun s => {| df := d; max_payload := max_payload s;
                      min_payload := min_payload s; app_layout := app_layout s |}).

Definition set_max_payload (m : option Q) : State server unit :=
  modify (fun s => {| df := df s; max_payload := m;
                      min_payload := min_payload s; app_layout := app_layout s |}).

Definition set_min_payload (m : option Q) : State server unit :=
  modify (fun s => {| df := df s; max_payload := max_payload s;
                      min_payload := m; app_layout := app_layout s |}).

Definition set_layout (c : component) : State server unit :=
  modify (fun s => {| df := df s; max_payload := max_payload s;
                      min_payload := min_payload s; app_layout := c |}).

(** The module body, run once at import: [df = pd.read_csv(data)] (the
    rename only relabels a column), then the two scalars, then
    [app.layout = ...]. *)
Definition module_body (csv : DataFrame) : State server unit :=
  set_df csv ;;
  d <- gets df ;;
  set_max_payload (series_max (map PayloadMass d)) ;;
  d <- gets df ;;
  set_min_payload (series_min (map PayloadMass d)) ;;
  mn <- gets min_payload ;;
  mx <- gets max_payload ;;
  set_layout (layout mn mx).

(** The process after start-up on a given CSV. *)
Definition startup (csv : DataFrame) : server := exec (module_body csv) blank.

(** [rows[rows['Launch Site'] == entered_site]] *)
Definition site_rows (rows : DataFrame) (entered_site : value) : DataFrame :=
  filter (fun r => value_eqb (VStr (Launch_Site r)) entered_site) rows.

(** [rows.groupby(['Launch Site', 'class']).size()] *)
Definition class_counts (rows : DataFrame) : list ((string * Z) * Z) :=
  aggregate series_size
    (groupby (fun r => (Launch_Site r, class r)) (fun _ => tt) rows).

(** [.reset_index(name='class count')] *)
Definition counts_frame (t : list ((string * Z) * Z)) : frame :=
  [ ("Launch Site", map (fun e => CStr (fst (fst e))) t);
    ("class", map (fun e => CInt (snd (fst e))) t);
    ("class count", map (fun e => CInt (snd e)) t) ].

(** [fig.update_layout(font_family="Segoe UI")] *)
Definition restyle (fig : figure) : figure :=
  with_layout (fun l =>
    {| font_family := Some "Segoe UI";
       title_font_size := title_font_size l;
       xaxis_title_font_size := xaxis_title_font_size l;
       yaxis_title_font_size := yaxis_title_font_size l;
       title_x := title_x l;
       barmode := barmode l |}) fig.

Definition get_pie_chart (entered_site : value) : State server figure :=
  d <- gets df ;;
  if value_eqb entered_site (VStr "ALL") then
    ret (restyle (px_pie (to_frame d) "class" "Launch Site"
                    "Total Success Launches By Site"))
  else
    let filtered_df := site_rows d entered_site in
    let filtered_df := counts_frame (class_counts filtered_df) in
    ret (restyle (px_pie filtered_df "class count" "class"
                    ("Total Success Launches for site " ++ format_value entered_site)%string)).

(** [series >= bound] and [series <= bound] for one cell; a NaN bound
    ([None]) compares false. *)
Definition ge_bound (p : Q) (b : option Q) : bool :=
  match b with Some lo => Qle_bool lo p | None => false end.

Definition le_bound (p : Q) (b : option Q) : bool :=
  match b with Some hi => Qle_bool p hi | None => false end.

(** [payload_range[0]] and [payload_range[1]] raise on a shorter list:
    the callback then has no result. *)
Definition get_scatter_chart (entered_site : value) (payload_range : list (option Q))
  : State server (option figure) :=
  d <- gets df ;;
  match nth_error payload_range 0, nth_error payload_range 1 with
  | Some lo, Some hi =>
      let filtered_df :=
        filter (fun r => ge_bound (PayloadMass r) lo && le_bound (PayloadMass r) hi) d in
      if value_eqb entered_site (VStr "ALL") then
        ret (Some (restyle (px_scatter (to_frame filtered_df) "PayloadMass" "class"
                              "Booster Version Category"
                              "Payload vs. Launch Outcome for All Sites")))
      else
        ret (Some (restyle (px_scatter (to_frame (site_rows filtered_df entered_site))
                              "PayloadMass" "class" "Booster Version Category"
                              ("Payload vs. Launch Outcome for " ++ format_value entered_site)%string)))
  | _, _ => ret None
  end.

(** The page in the browser: the two control values and the two figures
    that the callbacks write. *)
Record page : Type := {
  entered_site : value;
  payload_range : list (option Q);
  pie_figure : option figure;
  scatter_figure : option figure
}.

Definition declared_page (s : range_slider) : page :=
  {| entered_site := dd_value site_dropdown;
     payload_range := rs_value s;
     pie_figure := None;
     scatter_figure := None |}.

(** A callback that raised leaves its output as it was. *)
Definition or_keep (new old : option figure) : option figure :=
  match new with Some f => Some f | None => old end.

Definition refresh (p : page) : State server page :=
  pie <- get_pie_chart (entered_site p) ;;
  sc <- get_scatter_chart (entered_site p) (payload_range p) ;;
  ret {| entered_site := entered_site p; payload_range := payload_range p;
         pie_figure := Some pie;
         scatter_figure := or_keep sc (scatter_figure p) |}.

Inductive event : Type :=
| SiteChanged (v : value)
| PayloadChanged (range : list (option Q)).

(** The site feeds both callbacks, the slider only [get_scatter_chart]. *)
Definition on_event (e : event) (p : page) : State server page :=
  match e with
  | SiteChanged v =>
      refresh {| entered_site := v; payload_range := payload_range p;
                 pie_figure := pie_figure p; scatter_figure := scatter_figure p |}
  | PayloadChanged range =>
      sc <- get_scatter_chart (entered_site p) range ;;
      ret {| entered_site := entered_site p; payload_range := range;
             pie_figure := pie_figure p;
             scatter_figure := or_keep sc (scatter_figure p) |}
  end.

Fixpoint run (es : list event) (p : page) : State server page :=
  match es with
  | [] => ret p
  | e :: rest => p' <- on_event e p ;; run rest p'
  end.

Definition session (es : list event) : State server page :=
  mn <- gets min_payload ;;
  mx <- gets max_payload ;;
  p <- refresh (declared_page (payload_slider mn mx)) ;;
  run es p.

(** A fixture: three launches from two sites, one of them a failure. *)
Definition launch1 : row :=
  {| Launch_Site := "CCAFS LC-40"; PayloadMass := (500 # 1)%Q; class := 0;
     Booster_Version_Category := "v1.0" |}.

Definition launch2 : row :=
  {| Launch_Site := "CCAFS LC-40"; PayloadMass := (3170 # 1)%Q; class := 1;
     Booster_Version_Category := "v1.1" |}.

Definition launch3 : row :=
  {| Launch_Site := "KSC LC-39A"; PayloadMass := (9600 # 1)%Q; class := 1;
     Booster_Version_Category := "FT" |}.

Definition launch_fixture : DataFrame := [launch1; launch2; launch3].

End SpaceXLaunch.

(** ** What the specification calls an aggregation *)

(** [selected P rows out]: [out] is the rows of [rows] that satisfy [P], in
    the order of [rows]. *)
Inductive selected {R : Type} (P : R -> Prop) : list R -> list R -> Prop :=
| selected_nil : selected P [] []
| selected_keep r rows out :
    P r -> selected P rows out -> selected P (r :: rows) (r :: out)
| selected_skip r rows out :
    ~ P r -> selected P rows out -> selected P (r :: rows) out.

(** Specification of "reducer [f] of column [col] grouped by [key] over the
    rows of [rows] that satisfy [sel]": the table [t] has one entry per key
    occurring among those rows, and the entry of [k] is [f] applied to the
    column values of the rows with key [k], in row order. *)
Definition grouped_by {R K V W : Type} (key : R -> K) (col : R -> V)
  (f : list V -> W) (sel : R -> Prop) (rows : list R) (t : list (K * W)) : Prop :=
  NoDup (map fst t) /\
  forall k w,
    In (k, w) t <->
    exists out, selected (fun r => sel r /\ key r = k) rows out /\
                out <> [] /\ w = f (map col out).

(** Keys in non-decreasing order. *)
Definition keys_sorted {K W : Type} `{Key K} (t : list (K * W)) : Prop :=
  Sorted (fun a b => key_leb (fst a) (fst b) = true) t.

(** [sum] of an integer column. *)
Definition sumZ (zs : list Z) : Z := fold_left Z.add zs 0.

(** ** Figures that plotly can draw *)

Definition opt_list {A : Type} (o : option A) : list A :=
  match o with Some a => [a] | None => [] end.

(** The columns that a figure refers to by name. *)
Definition referenced_columns (fig : figure) : list string :=
  opt_list (fig_x fig) ++ fig_y fig ++ opt_list (fig_names fig) ++
  opt_list (fig_values fig) ++ opt_list (fig_color fig).

(** Every column referred to is in the frame (no KeyError), and the series
    of the frame have one length. *)
Definition figure_ok (fig : figure) : Prop :=
  (forall c, In c (referenced_columns fig) -> column c (fig_frame fig) <> None) /\
  (exists n, forall name srs, In (name, srs) (fig_frame fig) -> List.length srs = n).

(** ** Pages that show what their inputs ask for *)

(** The sales page shows the outputs of both callbacks at its current
    inputs. *)
Definition sales_page_in_sync (s : AutomobileSales.server) (p : AutomobileSales.page) : Prop :=
  AutomobileSales.year_disabled p =
    eval (AutomobileSales.update_year_dropdown (AutomobileSales.report_type p)) s /\
  AutomobileSales.output_children p =
    Some (eval (AutomobileSales.update_output (AutomobileSales.report_type p)
                  (AutomobileSales.selected_year p)) s).

(** The launch page shows the pie of its current site, and the scatter of
    its current site and range whenever that callback has a result. *)
Definition launch_page_in_sync (s : SpaceXLaunch.server) (p : SpaceXLaunch.page) : Prop :=
  SpaceXLaunch.pie_figure p =
    Some (eval (SpaceXLaunch.get_pie_chart (SpaceXLaunch.entered_site p)) s) /\
  match eval (SpaceXLaunch.get_scatter_chart (SpaceXLaunch.entered_site p)
                (SpaceXLaunch.payload_range p)) s with
  | Some fig => SpaceXLaunch.scatter_figure p = Some fig
  | None => True
  end.

(** ** Laws of group keys *)

Class KeyLaws (K : Type) `{Key K} : Prop := {
  key_eqb_eq : forall a b : K, key_eqb a b = true <-> a = b;
  key_leb_total : forall a b : K, key_leb a b = true \/ key_leb b a = true
}.

#[export] Instance KeyLaws_Z : KeyLaws Z.
Proof.
  split; simpl; intros a b.
  - apply Z.eqb_eq.
  - destruct (Z.leb_spec a b); [now left | right; apply Z.leb_le; lia].
Qed.

#[export] Instance KeyLaws_string : KeyLaws string.
Proof.
  split; simpl; intros a b.
  - apply String.eqb_eq.
  - apply String.leb_total.
Qed.

#[export] Instance KeyLaws_pair {A B : Type} `{KeyLaws A} `{KeyLaws B} : KeyLaws (A * B).
Proof.
  split; simpl.
  - intros [a b] [a' b']; simpl. rewrite andb_true_iff, !key_eqb_eq.
    split; [intros [-> ->]; reflexivity | intros E; inversion E; auto].
  - intros [a b] [a' b']; simpl.
    destruct (key_eqb a a') eqn:E.
    + apply key_eqb_eq in E; subst a'.
      replace (key_eqb a a) with true by (symmetry; now apply key_eqb_eq).
      apply key_leb_total.
    + destruct (key_eqb a' a) eqn:E'.
      * apply key_eqb_eq in E'; subst a'.
        assert (key_eqb a a = true) by now apply key_eqb_eq. congruence.
      * apply key_leb_total.
Qed.

Lemma key_eqb_refl {K : Type} `{KeyLaws K} (a : K) : key_eqb a a = true.
Proof. now apply key_eqb_eq. Qed.

Lemma key_eqb_sym {K : Type} `{KeyLaws K} (a b : K) : key_eqb a b = key_eqb b a.
Proof.
  destruct (key_eqb a b) eqn:E, (key_eqb b a) eqn:E'; try reflexivity.
  - apply key_eqb_eq in E; subst. rewrite key_eqb_refl in E'. discriminate.
  - apply key_eqb_eq in E'; subst. rewrite key_eqb_refl in E. discriminate.
Qed.

Lemma key_eqb_neq {K : Type} `{KeyLaws K} (a b : K) : key_eqb a b = false <-> a <> b.
Proof.
  split.
  - intros E ->. rewrite key_eqb_refl in E. discriminate.
  - intros N. destruct (key_eqb a b) eqn:E; [|reflexivity].
    apply key_eqb_eq in E. contradiction.
Qed.

(** ** [selected] is what [filter] computes *)

Lemma selected_filter {R : Type} (P : R -> Prop) (p : R -> bool) (rows : list R) :
  (forall r, p r = true <-> P r) -> selected P rows (filter p rows).
Proof.
  intros Hp. induction rows as [|r rows IH]; simpl.
  - constructor.
  - destruct (p r) eqn:E.
    + apply selected_keep; [now apply Hp | exact IH].
    + apply selected_skip; [|exact IH].
      intros HP. apply Hp in HP. congruence.
Qed.

(** Selecting by hand in a concrete frame. *)
Ltac select_rows :=
  repeat first
    [ apply selected_nil
    | apply selected_keep; [reflexivity|]
    | apply selected_skip; [simpl; discriminate|] ].

Lemma selected_fun {R : Type} (P : R -> Prop) (rows out out' : list R) :
  selected P rows out -> selected P rows out' -> out = out'.
Proof.
  intros S1. revert out'.
  induction S1 as [|r rows out HP S1 IH|r rows out HP S1 IH]; intros out' S2;
    inversion S2; subst; try contradiction; try reflexivity.
  - f_equal. now apply IH.
  - now apply IH.
Qed.

Lemma selected_In {R : Type} (P : R -> Prop) (rows out : list R) :
  selected P rows out -> forall r, In r out <-> In r rows /\ P r.
Proof.
  induction 1 as [|r0 rows out HP S1 IH|r0 rows out HP S1 IH]; intros r; simpl.
  - tauto.
  - rewrite IH. split.
    + intros [->|[? ?]]; auto.
    + intros [[->|?] ?]; auto.
  - rewrite IH. split.
    + intros [? ?]; auto.
    + intros [[->|?] ?]; [contradiction | auto].
Qed.

Lemma selected_ext {R : Type} (P Q : R -> Prop) (rows out : list R) :
  (forall r, P r <-> Q r) -> selected P rows out -> selected Q rows out.
Proof.
  intros E. induction 1; constructor; auto.
  - now apply E.
  - intros HQ. now apply E in HQ.
Qed.

(** ** Facts about [groupby] *)

Section GroupByFacts.

Context {R K V : Type} `{KeyLaws K}.

Implicit Types (k : K) (v : V) (gs : list (K * list V)).

Lemma group_values_add k k' v gs :
  group_values k (add_to_group k' v gs) =
  group_values k gs ++ (if key_eqb k k' then [v] else []).
Proof.
  induction gs as [|[k0 vs] gs IH]; simpl.
  - destruct (key_eqb k k'); reflexivity.
  - destruct (key_eqb k' k0) eqn:E0; simpl.
    + apply key_eqb_eq in E0; subst k0.
      destruct (key_eqb k k'); [reflexivity | now rewrite app_nil_r].
    + destruct (key_eqb k k0) eqn:E1; [|exact IH].
      apply key_eqb_eq in E1; subst k0.
      rewrite key_eqb_sym, E0. now rewrite app_nil_r.
Qed.

Lemma keys_add k k' v gs :
  In k (map fst (add_to_group k' v gs)) <-> k = k' \/ In k (map fst gs).
Proof.
  induction gs as [|[k0 vs] gs IH]; simpl.
  - intuition.
  - destruct (key_eqb k' k0) eqn:E0; simpl.
    + apply key_eqb_eq in E0; subst k0. intuition.
    + rewrite IH. intuition.
Qed.

Lemma NoDup_keys_add k v gs :
  NoDup (map fst gs) -> NoDup (map fst (add_to_group k v gs)).
Proof.
  induction gs as [|[k0 vs] gs IH]; simpl; intros ND.
  - constructor; [intros [] | constructor].
  - inversion ND as [|? ? Hnin ND']; subst.
    destruct (key_eqb k k0) eqn:E0; simpl.
    + constructor; assumption.
    + constructor; [|now apply IH].
      rewrite keys_add. intros [->|Hin]; [|contradiction].
      rewrite key_eqb_refl in E0. discriminate.
Qed.

Lemma groups_nonempty_add k v gs :
  Forall (fun g => snd g <> []) gs ->
  Forall (fun g => snd g <> []) (add_to_group k v gs).
Proof.
  induction gs as [|[k0 vs] gs IH]; simpl; intros F.
  - constructor; [simpl; discriminate | constructor].
  - inversion F; subst. destruct (key_eqb k k0); constructor; simpl; auto.
    intros E. apply app_eq_nil in E. destruct E; discriminate.
Qed.

Variables (key : R -> K) (col : R -> V).

Lemma group_values_pass k rows gs :
  group_values k (fold_groups key col rows gs) =
  group_values k gs ++ map col (filter (fun r => key_eqb k (key r)) rows).
Proof.
  revert gs. induction rows as [|r rows IH]; intros gs; simpl.
  - now rewrite app_nil_r.
  - unfold fold_groups in *; simpl. rewrite IH, group_values_add, <- app_assoc.
    destruct (key_eqb k (key r)); reflexivity.
Qed.

Lemma keys_pass k rows gs :
  In k (map fst (fold_groups key col rows gs)) <->
  In k (map fst gs) \/ exists r, In r rows /\ key r = k.
Proof.
  revert gs. induction rows as [|r rows IH]; intros gs; simpl.
  - split; [auto | intros [?|[? [[] _]]]; assumption].
  - unfold fold_groups in *; simpl. rewrite IH, keys_add. split.
    + intros [[->|Hin]|[r' [Hin E]]]; eauto.
    + intros [Hin|[r' [[->|Hin] E]]]; eauto.
Qed.

Lemma NoDup_keys_pass rows gs :
  NoDup (map fst gs) -> NoDup (map fst (fold_groups key col rows gs)).
Proof.
  revert gs. induction rows as [|r rows IH]; intros gs ND; simpl; [assumption|].
  apply IH. now apply NoDup_keys_add.
Qed.

Lemma groups_nonempty_pass rows gs :
  Forall (fun g => snd g <> []) gs ->
  Forall (fun g => snd g <> []) (fold_groups key col rows gs).
Proof.
  revert gs. induction rows as [|r rows IH]; intros gs F; simpl; [assumption|].
  apply IH. now apply groups_nonempty_add.
Qed.

Lemma group_values_In k vs gs :
  NoDup (map fst gs) -> In (k, vs) gs -> group_values k gs = vs.
Proof.
  induction gs as [|[k0 vs0] gs IH]; simpl; intros ND Hin; [contradiction|].
  inversion ND as [|? ? Hnin ND']; subst.
  destruct Hin as [E|Hin].
  - inversion E; subst. now rewrite key_eqb_refl.
  - destruct (key_eqb k k0) eqn:E0; [|now apply IH].
    apply key_eqb_eq in E0; subst k0.
    exfalso. apply Hnin. change k with (fst (k, vs)). now apply in_map.
Qed.

Lemma In_group_values k gs :
  In k (map fst gs) -> In (k, group_values k gs) gs.
Proof.
  induction gs as [|[k0 vs0] gs IH]; simpl; intros Hin; [contradiction|].
  destruct (key_eqb k k0) eqn:E0.
  - apply key_eqb_eq in E0; subst. now left.
  - right. apply IH. destruct Hin as [->|Hin]; [|assumption].
    rewrite key_eqb_refl in E0. discriminate.
Qed.

Lemma insert_group_perm (g : K * list V) gs :
  Permutation (insert_group g gs) (g :: gs).
Proof.
  induction gs as [|g' gs IH]; simpl; [reflexivity|].
  destruct (key_leb (fst g) (fst g')); [reflexivity|].
  rewrite IH. apply perm_swap.
Qed.

Lemma sort_groups_perm gs : Permutation (sort_groups gs) gs.
Proof.
  induction gs as [|g gs IH]; simpl; [reflexivity|].
  rewrite insert_group_perm. now constructor.
Qed.

Lemma insert_group_sorted (g : K * list V) gs :
  Sorted (fun a b => key_leb (fst a) (fst b) = true) gs ->
  Sorted (fun a b => key_leb (fst a) (fst b) = true) (insert_group g gs).
Proof.
  induction gs as [|g' gs IH]; simpl; intros S.
  - repeat constructor.
  - destruct (key_leb (fst g) (fst g')) eqn:E.
    + constructor; [assumption | now constructor].
    + inversion S as [|? ? S' Hd]; subst.
      constructor; [now apply IH|].
      destruct (key_leb_total (fst g) (fst g')) as [E'|E']; [congruence|].
      destruct gs as [|g'' gs]; simpl; [now constructor|].
      destruct (key_leb (fst g) (fst g'')); constructor; auto.
      now inversion Hd.
Qed.

Lemma sort_groups_sorted gs :
  Sorted (fun a b => key_leb (fst a) (fst b) = true) (sort_groups gs).
Proof.
  induction gs as [|g gs IH]; simpl; [constructor | now apply insert_group_sorted].
Qed.

Lemma factorize_NoDup rows : NoDup (map fst (factorize key col rows)).
Proof. apply (NoDup_keys_pass rows []). constructor. Qed.

(** The groups after the pass: one per key that occurs, holding the values
    of the rows with that key in row order. *)
Lemma factorize_In k vs rows :
  In (k, vs) (factorize key col rows) <->
  vs <> [] /\ vs = map col (filter (fun r => key_eqb k (key r)) rows).
Proof.
  assert (ND := factorize_NoDup rows).
  assert (NE : Forall (fun g => snd g <> []) (factorize key col rows))
    by (apply (groups_nonempty_pass rows []); constructor).
  assert (GV : group_values k (factorize key col rows)
               = map col (filter (fun r => key_eqb k (key r)) rows))
    by apply (group_values_pass k rows []).
  split.
  - intros Hin. split.
    + rewrite Forall_forall in NE. exact (NE _ Hin).
    + rewrite <- GV. symmetry. now apply group_values_In.
  - intros [Hne ->].
    rewrite <- GV. apply In_group_values.
    apply (keys_pass k rows []). right.
    destruct (filter (fun r => key_eqb k (key r)) rows) as [|r l] eqn:E;
      [now elim Hne|].
    assert (Hr : In r (filter (fun r => key_eqb k (key r)) rows))
      by (rewrite E; now left).
    apply filter_In in Hr. destruct Hr as [Hr Ek].
    exists r. split; [assumption|]. symmetry. now apply key_eqb_eq.
Qed.

Lemma groupby_NoDup rows : NoDup (map fst (groupby key col rows)).
Proof.
  unfold groupby.
  eapply Permutation_NoDup.
  - apply Permutation_map. symmetry. apply sort_groups_perm.
  - apply factorize_NoDup.
Qed.

(** Sorting the keys changes nothing else. *)
Lemma groupby_In k vs rows :
  In (k, vs) (groupby key col rows) <->
  vs <> [] /\ vs = map col (filter (fun r => key_eqb k (key r)) rows).
Proof.
  rewrite <- factorize_In. unfold groupby. split.
  - apply Permutation_in, sort_groups_perm.
  - apply Permutation_in, Permutation_sym, sort_groups_perm.
Qed.

End GroupByFacts.

(** ** [groupby] followed by a reducer meets the specification *)

Lemma filter_filter {R : Type} (p q : R -> bool) (rows : list R) :
  filter q (filter p rows) = filter (fun r => p r && q r) rows.
Proof.
  induction rows as [|r rows IH]; simpl; [reflexivity|].
  destruct (p r); simpl; [destruct (q r)|]; now rewrite IH.
Qed.

Lemma aggregate_keys {K V W : Type} (f : list V -> W) (gs : list (K * list V)) :
  map fst (aggregate f gs) = map fst gs.
Proof. unfold aggregate. rewrite map_map. reflexivity. Qed.

Lemma aggregate_In {K V W : Type} (f : list V -> W) (gs : list (K * list V)) k w :
  In (k, w) (aggregate f gs) <-> exists vs, In (k, vs) gs /\ w = f vs.
Proof.
  unfold aggregate. rewrite in_map_iff. split.
  - intros [[k' vs] [E Hin]]. simpl in E. inversion E; subst. eauto.
  - intros [vs [Hin ->]]. exists (k, vs). auto.
Qed.

Lemma aggregate_groups_spec {R K V W : Type} `{KeyLaws K}
  (key : R -> K) (col : R -> V) (f : list V -> W)
  (sel : R -> Prop) (p : R -> bool) (rows : list R) (gs : list (K * list V)) :
  (forall r, p r = true <-> sel r) ->
  NoDup (map fst gs) ->
  (forall k vs, In (k, vs) gs <->
     vs <> [] /\ vs = map col (filter (fun r => key_eqb k (key r)) (filter p rows))) ->
  grouped_by key col f sel rows (aggregate f gs).
Proof.
  intros Hp ND Hgs. split.
  - now rewrite aggregate_keys.
  - intros k w.
    assert (S : selected (fun r => sel r /\ key r = k) rows
                  (filter (fun r => key_eqb k (key r)) (filter p rows))).
    { rewrite filter_filter. apply selected_filter. intros r.
      rewrite andb_true_iff, Hp, key_eqb_eq. intuition. }
    rewrite aggregate_In. split.
    + intros [vs [Hin ->]]. apply Hgs in Hin. destruct Hin as [Hne E].
      eexists. split; [exact S|]. split; [|now rewrite E].
      intros E'. rewrite E' in E. simpl in E. contradiction.
    + intros [out [S' [Hne ->]]].
      rewrite (selected_fun _ _ _ _ S' S) in *.
      eexists. split; [|reflexivity].
      apply Hgs. split; [|reflexivity].
      intros E. apply map_eq_nil in E. contradiction.
Qed.

Lemma aggregate_groupby_spec {R K V W : Type} `{KeyLaws K}
  (key : R -> K) (col : R -> V) (f : list V -> W)
  (sel : R -> Prop) (p : R -> bool) (rows : list R) :
  (forall r, p r = true <-> sel r) ->
  grouped_by key col f sel rows (aggregate f (groupby key col (filter p rows))).
Proof.
  intros Hp. apply (aggregate_groups_spec key col f sel p); try assumption.
  - apply groupby_NoDup.
  - intros k vs. apply groupby_In.
Qed.

Lemma aggregate_factorize_spec {R K V W : Type} `{KeyLaws K}
  (key : R -> K) (col : R -> V) (f : list V -> W)
  (sel : R -> Prop) (p : R -> bool) (rows : list R) :
  (forall r, p r = true <-> sel r) ->
  grouped_by key col f sel rows (aggregate f (factorize key col (filter p rows))).
Proof.
  intros Hp. apply (aggregate_groups_spec key col f sel p); try assumption.
  - apply factorize_NoDup.
  - intros k vs. apply factorize_In.
Qed.

Lemma aggregate_groupby_sorted {R K V W : Type} `{KeyLaws K}
  (key : R -> K) (col : R -> V) (f : list V -> W) (rows : list R) :
  keys_sorted (aggregate f (groupby key col rows)).
Proof.
  unfold keys_sorted, groupby.
  generalize (sort_groups_sorted (factorize key col rows)).
  generalize (sort_groups (factorize key col rows)).
  induction 1 as [|g gs S IH Hd]; simpl; constructor; auto.
  destruct Hd; simpl; constructor; assumption.
Qed.

(** ** Callbacks that only read the globals *)

Lemma read_only_ret {S A : Type} (a : A) : read_only (S := S) (ret a).
Proof. intros s. reflexivity. Qed.

Lemma read_only_gets {S A : Type} (f : S -> A) : read_only (gets f).
Proof. intros s. reflexivity. Qed.

Lemma read_only_bind {S A B : Type} (m : State S A) (f : A -> State S B) :
  read_only m -> (forall a, read_only (f a)) -> read_only (bind m f).
Proof.
  intros Hm Hf s. unfold exec, bind.
  specialize (Hm s). unfold exec in Hm.
  destruct (m s) as [a s']. simpl in Hm. subst s'. apply Hf.
Qed.

Lemma eval_bind_read_only {S A B : Type} (m : State S A) (f : A -> State S B) s :
  read_only m -> eval (bind m f) s = eval (f (eval m s)) s.
Proof.
  intros Hm. unfold eval, bind. specialize (Hm s). unfold exec in Hm.
  destruct (m s) as [a s']. simpl in *. now subst.
Qed.

Create HintDb frame.
#[export] Hint Resolve read_only_ret read_only_gets read_only_bind : frame.

Lemma value_eqb_eq (a b : value) : value_eqb a b = true <-> a = b.
Proof.
  destruct a, b; simpl; try (split; [discriminate | congruence]).
  - tauto.
  - rewrite Z.eqb_eq. split; congruence.
  - rewrite String.eqb_eq. split; congruence.
Qed.

Lemma filter_all {R : Type} (rows : list R) : filter (fun _ => true) rows = rows.
Proof. induction rows; simpl; congruence. Qed.

(** Rows that agree on what [key], [col] and a filter read give the same
    groups. *)
Lemma groupby_agree {R K V : Type} `{Key K} (E : R -> R -> Prop)
  (key : R -> K) (col : R -> V) (rows rows' : list R) :
  (forall r r', E r r' -> key r = key r' /\ col r = col r') ->
  Forall2 E rows rows' -> groupby key col rows = groupby key col rows'.
Proof.
  intros HE F. unfold groupby, factorize, fold_groups. f_equal.
  generalize (@nil (K * list V)).
  induction F as [|r r' rows rows' Hr F IH]; intros gs; simpl; [reflexivity|].
  destruct (HE _ _ Hr) as [-> ->]. apply IH.
Qed.

Lemma filter_agree {R : Type} (E : R -> R -> Prop) (p : R -> bool) (rows rows' : list R) :
  (forall r r', E r r' -> p r = p r') ->
  Forall2 E rows rows' -> Forall2 E (filter p rows) (filter p rows').
Proof.
  intros HE F. induction F as [|r r' rows rows' Hr F IH]; simpl; [constructor|].
  rewrite <- (HE _ _ Hr). destruct (p r); [constructor|]; assumption.
Qed.

(** ** The automobile sales dashboard *)

Section SalesFacts.

Import AutomobileSales.

Lemma update_year_dropdown_read_only rt : read_only (update_year_dropdown rt).
Proof. unfold update_year_dropdown. destruct (value_eqb _ _); auto with frame. Qed.

Lemma update_output_read_only rt y : read_only (update_output rt y).
Proof.
  unfold update_output. apply read_only_bind; [auto with frame|].
  intros d. destruct (value_eqb _ _); auto with frame.
Qed.

Lemma refresh_read_only p : read_only (refresh p).
Proof.
  unfold refresh.
  auto using update_year_dropdown_read_only, update_output_read_only with frame.
Qed.

Lemma on_event_read_only e p : read_only (on_event e p).
Proof.
  destruct e; simpl; auto using refresh_read_only, update_output_read_only with frame.
Qed.

Lemma run_read_only es : forall p, read_only (run es p).
Proof.
  induction es as [|e es IH]; intros p; simpl;
    auto using on_event_read_only with frame.
Qed.

Lemma session_read_only es : read_only (session es).
Proof.
  unfold session.
  auto 6 using refresh_read_only, run_read_only with frame.
Qed.

Lemma year_rows_agree d d' y :
  Forall2 same_but_GDP d d' -> Forall2 same_but_GDP (year_rows d y) (year_rows d' y).
Proof.
  apply filter_agree. intros r r' (E & _). now rewrite E.
Qed.

Lemma recession_df_agree d d' :
  Forall2 same_but_GDP d d' -> Forall2 same_but_GDP (recession_df d) (recession_df d').
Proof.
  apply filter_agree. intros r r' (_ & _ & _ & _ & _ & E & _). now rewrite E.
Qed.

Lemma filter_years_agree d d' :
  Forall2 same_but_GDP d d' -> Forall2 same_but_GDP (filter_years d) (filter_years d').
Proof.
  apply filter_agree. intros r r' (E & _). now rewrite E.
Qed.

Lemma tables_agree d d' :
  Forall2 same_but_GDP d d' ->
  yearly_sales d = yearly_sales d' /\ monthly_sales d = monthly_sales d' /\
  avg_sales_by_type d = avg_sales_by_type d' /\ ad_exp_by_type d = ad_exp_by_type d' /\
  avg_unemp_sales d = avg_unemp_sales d'.
Proof.
  intros F.
  unfold yearly_sales, monthly_sales, avg_sales_by_type, ad_exp_by_type, avg_unemp_sales.
  repeat split; f_equal; apply (groupby_agree same_but_GDP); try assumption;
    intros r r' (E1 & E2 & E3 & E4 & E5 & E6 & E7); split; congruence.
Qed.

Lemma update_output_agree s s' rt y :
  Forall2 same_but_GDP (df s) (df s') ->
  eval (update_output rt y) s = eval (update_output rt y) s'.
Proof.
  intros F. unfold update_output, eval, bind, gets, ret.
  destruct (value_eqb rt (VStr "yearly")); simpl.
  - destruct (tables_agree _ _ F) as (-> & _).
    destruct (tables_agree _ _ (year_rows_agree _ _ y F)) as (_ & -> & -> & -> & _).
    reflexivity.
  - destruct (tables_agree _ _ (recession_df_agree _ _ F)) as (-> & _ & -> & -> & ->).
    reflexivity.
Qed.

End SalesFacts.

Section SalesClaims.

Import AutomobileSales.

Lemma grouped_all {K V W : Type} `{KeyLaws K} (key : row -> K) (col : row -> V)
  (f : list V -> W) (d : DataFrame) :
  grouped_by key col f (fun _ => True) d (aggregate f (groupby key col d)).
Proof.
  rewrite <- (filter_all d) at 2.
  apply aggregate_groupby_spec. intros r. tauto.
Qed.

Lemma grouped_year {K V W : Type} `{KeyLaws K} (key : row -> K) (col : row -> V)
  (f : list V -> W) (d : DataFrame) (y : value) :
  grouped_by key col f (fun r => VInt (Year r) = y) d
    (aggregate f (groupby key col (year_rows d y))).
Proof. apply aggregate_groupby_spec. intros r. apply value_eqb_eq. Qed.

Lemma grouped_recession {K V W : Type} `{KeyLaws K} (key : row -> K) (col : row -> V)
  (f : list V -> W) (d : DataFrame) :
  grouped_by key col f (fun r => Recession r = 1) d
    (aggregate f (groupby key col (recession_df d))).
Proof. apply aggregate_groupby_spec. intros r. apply Z.eqb_eq. Qed.

(** C1. In yearly mode [update_output] shows four figures, drawn from
    exactly these tables: (a) the mean of Automobile_Sales grouped by Year
    over the whole retained dataset, (b) the sum of Automobile_Sales grouped
    by Month over the rows of the selected year, (c) the mean of
    Automobile_Sales grouped by Vehicle_Type over the rows of the selected
    year, (d) the sum of Advertising_Expenditure grouped by Vehicle_Type
    over the rows of the selected year. *)
Theorem C1_yearly_aggregations (s : server) (y : value) :
  exists (a : list (Z * Q)) (b c d : list (string * Q)),
    grouped_by Year Automobile_Sales series_mean (fun _ => True) (df s) a /\
    grouped_by Month Automobile_Sales series_sum
      (fun r => VInt (Year r) = y) (df s) b /\
    grouped_by Vehicle_Type Automobile_Sales series_mean
      (fun r => VInt (Year r) = y) (df s) c /\
    grouped_by Vehicle_Type Advertising_Expenditure series_sum
      (fun r => VInt (Year r) = y) (df s) d /\
    map fig_frame (figures (eval (update_output (VStr "yearly") y) s)) =
      [ reset_index "Year" CInt "Automobile_Sales" a;
        reset_index "Month" CStr "Automobile_Sales" b;
        reset_index "Vehicle_Type" CStr "Automobile_Sales" c;
        reset_index "Vehicle_Type" CStr "Advertising_Expenditure" d ].
Proof.
  exists (yearly_sales (df s)), (monthly_sales (year_rows (df s) y)),
         (avg_sales_by_type (year_rows (df s) y)),
         (ad_exp_by_type (year_rows (df s) y)).
  split; [apply grouped_all|].
  split; [apply grouped_year|].
  split; [apply grouped_year|].
  split; [apply grouped_year|].
  reflexivity.
Qed.

(** In recession mode the output is a function of the recession rows. *)
Lemma update_output_recession_rows s s' rt y :
  value_eqb rt (VStr "yearly") = false ->
  recession_df (df s) = recession_df (df s') ->
  eval (update_output rt y) s = eval (update_output rt y) s'.
Proof.
  intros Hrt E. unfold update_output, eval, bind, gets, ret.
  rewrite Hrt. simpl. rewrite E. reflexivity.
Qed.

(** C2. In recession mode every table that [update_output] draws is an
    aggregation over the rows with Recession = 1 only, and the output does
    not change with the rows whose flag is not 1: two datasets with the same
    recession rows give the same output. *)
Theorem C2_recession_rows_only (s : server) (y : value) :
  (exists (a : list (Z * Q)) (b c : list (string * Q)) (d : list (string * (Q * Q))),
    grouped_by Year Automobile_Sales series_mean (fun r => Recession r = 1) (df s) a /\
    grouped_by Vehicle_Type Automobile_Sales series_mean
      (fun r => Recession r = 1) (df s) b /\
    grouped_by Vehicle_Type Advertising_Expenditure series_sum
      (fun r => Recession r = 1) (df s) c /\
    grouped_by Vehicle_Type (fun r => (unemployment_rate r, Automobile_Sales r))
      (fun vs => (series_mean (map fst vs), series_mean (map snd vs)))
      (fun r => Recession r = 1) (df s) d /\
    map fig_frame (figures (eval (update_output (VStr "recession") y) s)) =
      [ reset_index "Year" CInt "Automobile_Sales" a;
        reset_index "Vehicle_Type" CStr "Automobile_Sales" b;
        reset_index "Vehicle_Type" CStr "Advertising_Expenditure" c;
        reset_index2 "Vehicle_Type" CStr "unemployment_rate" "Automobile_Sales" d ]) /\
  (forall (s' : server) (out : DataFrame),
    selected (fun r => Recession r = 1) (df s) out ->
    selected (fun r => Recession r = 1) (df s') out ->
    eval (update_output (VStr "recession") y) s' =
    eval (update_output (VStr "recession") y) s).
Proof.
  split.
  - exists (yearly_sales (recession_df (df s))),
           (avg_sales_by_type (recession_df (df s))),
           (ad_exp_by_type (recession_df (df s))),
           (avg_unemp_sales (recession_df (df s))).
    repeat (split; [apply grouped_recession|]).
    reflexivity.
  - intros s' out S S'.
    assert (R : forall d, selected (fun r => Recession r = 1) d (recession_df d)).
    { intros d. apply selected_filter. intros r. apply Z.eqb_eq. }
    apply update_output_recession_rows; [reflexivity|].
    rewrite <- (selected_fun _ _ _ _ S (R _)).
    rewrite <- (selected_fun _ _ _ _ S' (R _)). reflexivity.
Qed.

Lemma C2_recession_rows_only_witness :
  eval (update_output (VStr "recession") (VInt 1980)) (startup recession_fixture) =
  eval (update_output (VStr "recession") (VInt 1980)) (startup mixed_fixture).
Proof.
  apply (proj2 (C2_recession_rows_only (startup mixed_fixture) (VInt 1980))
           (startup recession_fixture) recession_fixture).
  - simpl. select_rows.
  - simpl. select_rows.
Defined.

(** C3. The dataset that the process holds is the CSV restricted to
    1980 <= Year <= 2013, bounds included: every retained row is in range,
    every row of the CSV in range is retained (in file order), and this
    still holds after any sequence of callback invocations. *)
Theorem C3_years_retained (csv : DataFrame) (es : list event) :
  selected (fun r => 1980 <= Year r <= 2013) csv
    (df (exec (session es) (startup csv))) /\
  (forall r, In r (df (exec (session es) (startup csv))) <->
             In r csv /\ 1980 <= Year r <= 2013).
Proof.
  pose proof (session_read_only es (startup csv)) as E.
  rewrite E. simpl.
  assert (S : selected (fun r => 1980 <= Year r <= 2013) csv (filter_years csv)).
  { apply selected_filter. intros r. rewrite andb_true_iff, !Z.leb_le. tauto. }
  split; [exact S | exact (selected_In _ _ _ S)].
Qed.

(** C7. [update_year_dropdown] returns disabled = False exactly when the
    report type is 'yearly' and disabled = True for every other value, and
    this value is what a change of the report type writes to the [disabled]
    property of the year dropdown. *)
Theorem C7_year_dropdown_disabled (v : value) (s : server) (p : page) :
  (eval (update_year_dropdown v) s = false <-> v = VStr "yearly") /\
  (eval (update_year_dropdown v) s = true <-> v <> VStr "yearly") /\
  year_disabled (eval (on_event (ReportTypeChanged v) p) s) =
    eval (update_year_dropdown v) s.
Proof.
  assert (E : eval (update_year_dropdown v) s = negb (value_eqb v (VStr "yearly"))).
  { unfold update_year_dropdown. destruct (value_eqb _ _); reflexivity. }
  split; [|split].
  - rewrite E, negb_false_iff. apply value_eqb_eq.
  - rewrite E, negb_true_iff, <- not_true_iff_false, value_eqb_eq. tauto.
  - simpl. unfold refresh.
    rewrite eval_bind_read_only by apply update_year_dropdown_read_only.
    rewrite eval_bind_read_only by apply update_output_read_only.
    reflexivity.
Qed.

Lemma on_event_agree s s' e p :
  Forall2 same_but_GDP (df s) (df s') ->
  eval (on_event e p) s = eval (on_event e p) s'.
Proof.
  intros F. destruct e as [v|y]; simpl; unfold refresh.
  - rewrite !(eval_bind_read_only (update_year_dropdown v))
      by apply update_year_dropdown_read_only.
    rewrite !(eval_bind_read_only (update_output _ _))
      by apply update_output_read_only.
    rewrite (update_output_agree s s') by assumption.
    unfold update_year_dropdown. destruct (value_eqb _ _); reflexivity.
  - rewrite !(eval_bind_read_only (update_output _ _))
      by apply update_output_read_only.
    rewrite (update_output_agree s s') by assumption. reflexivity.
Qed.

Lemma run_agree s s' es :
  Forall2 same_but_GDP (df s) (df s') ->
  forall p, eval (run es p) s = eval (run es p) s'.
Proof.
  intros F. induction es as [|e es IH]; intros p; simpl; [reflexivity|].
  rewrite !(eval_bind_read_only (on_event e p)) by apply on_event_read_only.
  rewrite (on_event_agree s s') by assumption. apply IH.
Qed.

(** C9. Two datasets that differ only in the GDP column give the same
    output of [update_output] for every report type and every selected
    year, and the same page after any sequence of input changes. *)
Theorem C9_GDP_not_read (s s' : server) :
  Forall2 same_but_GDP (df s) (df s') ->
  (forall rt y, eval (update_output rt y) s = eval (update_output rt y) s') /\
  (forall es, eval (session es) s = eval (session es) s').
Proof.
  intros F. split.
  - intros rt y. now apply update_output_agree.
  - intros es. unfold session.
    rewrite !(eval_bind_read_only (gets df)) by apply read_only_gets.
    rewrite !(eval_bind_read_only (refresh _)) by apply refresh_read_only.
    replace (eval (refresh (declared_page (eval (gets df) s'))) s')
      with (eval (refresh (declared_page (eval (gets df) s))) s).
    + now apply run_agree.
    + apply (on_event_agree s s' (ReportTypeChanged (VStr "yearly"))
               (declared_page (df s)) F).
Qed.

Lemma C9_GDP_not_read_witness :
  (forall rt y,
     eval (update_output rt y) (startup mixed_fixture) =
     eval (update_output rt y) (startup (map (with_GDP 0) mixed_fixture))) /\
  (forall es,
     eval (session es) (startup mixed_fixture) =
     eval (session es) (startup (map (with_GDP 0) mixed_fixture))).
Proof.
  apply (C9_GDP_not_read (startup mixed_fixture)
           (startup (map (with_GDP 0) mixed_fixture))).
  simpl. repeat constructor.
Defined.

(** C10. In recession mode the output of [update_output] does not depend
    on the selected year. *)
Theorem C10_recession_ignores_year (s : server) (y1 y2 : value) :
  eval (update_output (VStr "recession") y1) s =
  eval (update_output (VStr "recession") y2) s.
Proof. reflexivity. Qed.

End SalesClaims.

(** ** What a pie trace draws *)

Lemma fold_add_shift (zs : list Z) (a : Z) : fold_left Z.add zs a = a + sumZ zs.
Proof.
  unfold sumZ. revert a. induction zs as [|z zs IH]; intros a; simpl; [lia|].
  rewrite IH, (IH z). lia.
Qed.

Lemma sumZ_cons (z : Z) (zs : list Z) : sumZ (z :: zs) = z + sumZ zs.
Proof. unfold sumZ at 1. simpl. apply fold_add_shift. Qed.

Lemma sumZ_app (a b : list Z) : sumZ (a ++ b) = sumZ a + sumZ b.
Proof.
  induction a as [|z a IH]; simpl; [reflexivity|].
  rewrite !sumZ_cons, IH. lia.
Qed.

Lemma sumZ_snoc (a : list Z) (z : Z) : sumZ (a ++ [z]) = sumZ a + z.
Proof. rewrite sumZ_app, sumZ_cons. unfold sumZ at 2. simpl. lia. Qed.

Lemma slices_total_typed {L : Type} (inj : L -> cell) (t : list (L * Z)) :
  slices_total (label_slices inj t) = CInt (sumZ (map snd t)).
Proof.
  unfold slices_total, label_slices, sumZ. rewrite map_map. simpl.
  generalize 0. induction t as [|e t IH]; intros a; simpl; [reflexivity|].
  apply IH.
Qed.

Section Slices.

Context {R L : Type} `{KeyLaws L} (inj : L -> cell).
Hypothesis inj_eqb : forall a b, cell_eqb (inj a) (inj b) = key_eqb a b.
Variables (key : R -> L) (col : R -> Z).

Lemma add_to_slice_typed l z (gs : list (L * list Z)) :
  add_to_slice (inj l) (CInt z) (label_slices inj (aggregate sumZ gs)) =
  label_slices inj (aggregate sumZ (add_to_group l z gs)).
Proof.
  induction gs as [|[k vs] gs IH]; simpl; [reflexivity|].
  rewrite inj_eqb. destruct (key_eqb l k); simpl.
  - now rewrite sumZ_snoc.
  - now rewrite IH.
Qed.

Lemma slices_of_groups rows (gs : list (L * list Z)) :
  fold_left (fun ss lv => add_to_slice (fst lv) (snd lv) ss)
    (combine (map (fun r => inj (key r)) rows) (map (fun r => CInt (col r)) rows))
    (label_slices inj (aggregate sumZ gs)) =
  label_slices inj (aggregate sumZ (fold_groups key col rows gs)).
Proof.
  revert gs. induction rows as [|r rows IH]; intros gs; simpl; [reflexivity|].
  rewrite add_to_slice_typed. apply IH.
Qed.

(** The slices of a pie whose labels are [key] and whose values are the
    integer column [col]: the sum of [col] per label, labels in order of
    first appearance. *)
Lemma slices_of_rows rows :
  slices_of (map (fun r => inj (key r)) rows) (map (fun r => CInt (col r)) rows) =
  label_slices inj (aggregate sumZ (factorize key col rows)).
Proof. apply (slices_of_groups rows []). Qed.

Lemma tally_add l z (gs : list (L * list Z)) :
  sumZ (map snd (aggregate sumZ (add_to_group l z gs))) =
  sumZ (map snd (aggregate sumZ gs)) + z.
Proof.
  induction gs as [|[k vs] gs IH]; simpl.
  - unfold sumZ. simpl. lia.
  - destruct (key_eqb l k); simpl; rewrite !sumZ_cons.
    + rewrite sumZ_snoc. fold (aggregate sumZ gs). lia.
    + rewrite IH. lia.
Qed.

Lemma tally_total rows (gs : list (L * list Z)) :
  sumZ (map snd (aggregate sumZ (fold_groups key col rows gs))) =
  sumZ (map snd (aggregate sumZ gs)) + sumZ (map col rows).
Proof.
  unfold fold_groups.
  revert gs. induction rows as [|r rows IH]; intros gs; simpl.
  - change (sumZ []) with 0. lia.
  - rewrite IH, tally_add, sumZ_cons. lia.
Qed.

(** The slices add up to the sum of the whole column. *)
Lemma slices_of_rows_total rows :
  slices_total
    (slices_of (map (fun r => inj (key r)) rows) (map (fun r => CInt (col r)) rows)) =
  CInt (sumZ (map col rows)).
Proof.
  rewrite slices_of_rows, slices_total_typed. f_equal.
  apply (tally_total rows []).
Qed.

End Slices.

(** ** Extremes of a series *)

Lemma fold_max_spec (vs : list Q) (v : Q) :
  let m := fold_left (fun m x => if Qle_bool m x then x else m) vs v in
  In m (v :: vs) /\ Forall (fun x => (x <= m)%Q) (v :: vs).
Proof.
  revert v. induction vs as [|x vs IH]; intros v; simpl.
  - split; [now left|]. constructor; [apply Qle_refl | constructor].
  - destruct (IH (if Qle_bool v x then x else v)) as [Hin Hall].
    inversion Hall as [|? ? Hhd Htl]; subst.
    destruct (Qle_bool v x) eqn:E; simpl in *.
    + apply Qle_bool_iff in E. split; [tauto|].
      constructor; [eapply Qle_trans; eassumption|].
      constructor; assumption.
    + assert (x <= v)%Q.
      { apply Qlt_le_weak, Qnot_le_lt. intros C.
        apply Qle_bool_iff in C. congruence. }
      split; [tauto|].
      constructor; [assumption|].
      constructor; [eapply Qle_trans; eassumption | assumption].
Qed.

Lemma fold_min_spec (vs : list Q) (v : Q) :
  let m := fold_left (fun m x => if Qle_bool x m then x else m) vs v in
  In m (v :: vs) /\ Forall (fun x => (m <= x)%Q) (v :: vs).
Proof.
  revert v. induction vs as [|x vs IH]; intros v; simpl.
  - split; [now left|]. constructor; [apply Qle_refl | constructor].
  - destruct (IH (if Qle_bool x v then x else v)) as [Hin Hall].
    inversion Hall as [|? ? Hhd Htl]; subst.
    destruct (Qle_bool x v) eqn:E; simpl in *.
    + apply Qle_bool_iff in E. split; [tauto|].
      constructor; [eapply Qle_trans; eassumption|].
      constructor; assumption.
    + assert (v <= x)%Q.
      { apply Qlt_le_weak, Qnot_le_lt. intros C.
        apply Qle_bool_iff in C. congruence. }
      split; [tauto|].
      constructor; [assumption|].
      constructor; [eapply Qle_trans; eassumption | assumption].
Qed.

(** [.max()]: an element of the series that bounds it from above; NaN
    exactly on the empty series. *)
Lemma series_max_spec (vs : list Q) :
  match series_max vs with
  | Some m => In m vs /\ Forall (fun x => (x <= m)%Q) vs
  | None => vs = []
  end.
Proof. destruct vs as [|v vs]; simpl; [reflexivity | apply fold_max_spec]. Qed.

Lemma series_min_spec (vs : list Q) :
  match series_min vs with
  | Some m => In m vs /\ Forall (fun x => (m <= x)%Q) vs
  | None => vs = []
  end.
Proof. destruct vs as [|v vs]; simpl; [reflexivity | apply fold_min_spec]. Qed.

(** ** Group sizes *)

Section Sizes.

Context {R K V : Type} `{Key K}.

Implicit Types (gs : list (K * list V)).

Lemma sizes_add (k : K) (v : V) gs :
  sumZ (map snd (aggregate series_size (add_to_group k v gs))) =
  sumZ (map snd (aggregate series_size gs)) + 1.
Proof.
  induction gs as [|[k0 vs] gs IH]; simpl.
  - reflexivity.
  - destruct (key_eqb k k0); simpl; rewrite !sumZ_cons; fold (aggregate series_size gs).
    + unfold series_size. rewrite length_app. simpl. lia.
    + rewrite IH. lia.
Qed.

Lemma sizes_insert (g : K * list V) gs :
  sumZ (map snd (aggregate series_size (insert_group g gs))) =
  series_size (snd g) + sumZ (map snd (aggregate series_size gs)).
Proof.
  induction gs as [|g' gs IH]; simpl.
  - now rewrite sumZ_cons.
  - destruct (key_leb (fst g) (fst g')); simpl; rewrite !sumZ_cons.
    + reflexivity.
    + rewrite IH. fold (aggregate series_size gs). lia.
Qed.

Lemma sizes_sort gs :
  sumZ (map snd (aggregate series_size (sort_groups gs))) =
  sumZ (map snd (aggregate series_size gs)).
Proof.
  induction gs as [|g gs IH]; simpl; [reflexivity|].
  rewrite sizes_insert, sumZ_cons, IH. reflexivity.
Qed.

(** The group sizes add up to the number of rows. *)
Lemma sizes_total (key : R -> K) (col : R -> V) (rows : list R) :
  sumZ (map snd (aggregate series_size (groupby key col rows))) =
  Z.of_nat (List.length rows).
Proof.
  unfold groupby. rewrite sizes_sort. unfold factorize, fold_groups.
  assert (G : forall gs,
    sumZ (map snd (aggregate series_size
      (fold_left (fun gs r => add_to_group (key r) (col r) gs) rows gs))) =
    sumZ (map snd (aggregate series_size gs)) + Z.of_nat (List.length rows)).
  { induction rows as [|r rows IH]; intros gs; simpl List.length; simpl fold_left.
    - lia.
    - rewrite IH, sizes_add. lia. }
  rewrite G. reflexivity.
Qed.

End Sizes.

Lemma selected_NoDup_map {R A : Type} (P : R -> Prop) (f : R -> A) (rows out : list R) :
  selected P rows out -> NoDup (map f rows) -> NoDup (map f out).
Proof.
  induction 1 as [|r rows out HP S IH|r rows out HP S IH]; simpl; intros ND.
  - constructor.
  - inversion ND as [|? ? Hnin ND']; subst. constructor; [|now apply IH].
    intros Hin. apply Hnin. apply in_map_iff in Hin.
    destruct Hin as [r' [E Hin]]. rewrite <- E. apply in_map.
    now apply (selected_In _ _ _ S).
  - inversion ND; subst. now apply IH.
Qed.

Lemma NoDup_constant {R A : Type} (f : R -> A) (a : A) (l : list R) :
  NoDup (map f l) -> (forall r, In r l -> f r = a) ->
  l = [] \/ exists r, l = [r].
Proof.
  destruct l as [|r [|r' l]]; simpl; intros ND Hc; eauto.
  exfalso. inversion ND as [|? ? Hnin _]; subst. apply Hnin. left.
  rewrite (Hc r), (Hc r'); auto.
Qed.

(** ** The SpaceX launch dashboard *)

Section LaunchFacts.

Import SpaceXLaunch.

Lemma get_pie_chart_read_only v : read_only (get_pie_chart v).
Proof.
  unfold get_pie_chart. apply read_only_bind; [auto with frame|].
  intros d. destruct (value_eqb _ _); auto with frame.
Qed.

Lemma get_scatter_chart_read_only v range : read_only (get_scatter_chart v range).
Proof.
  unfold get_scatter_chart. apply read_only_bind; [auto with frame|].
  intros d. destruct (nth_error range 0), (nth_error range 1),
    (value_eqb v (VStr "ALL")); auto with frame.
Qed.

Lemma launch_refresh_read_only p : read_only (refresh p).
Proof.
  unfold refresh.
  auto using get_pie_chart_read_only, get_scatter_chart_read_only with frame.
Qed.

Lemma launch_on_event_read_only e p : read_only (on_event e p).
Proof.
  destruct e; simpl;
    auto using launch_refresh_read_only, get_scatter_chart_read_only with frame.
Qed.

Lemma launch_run_read_only es : forall p, read_only (run es p).
Proof.
  induction es as [|e es IH]; intros p; simpl;
    auto using launch_on_event_read_only with frame.
Qed.

Lemma launch_session_read_only es : read_only (session es).
Proof.
  unfold session.
  auto 7 using launch_refresh_read_only, launch_run_read_only with frame.
Qed.

Lemma site_rows_selected d site :
  selected (fun r => Launch_Site r = site) d (site_rows d (VStr site)).
Proof.
  apply selected_filter. intros r. rewrite value_eqb_eq.
  split; [intros E; now inversion E | now intros ->].
Qed.

(** The sum of a 0/1 column counts its ones. *)
Lemma sum_flags (d : DataFrame) :
  Forall (fun r => class r = 0 \/ class r = 1) d ->
  sumZ (map class d) = Z.of_nat (List.length (filter (fun r => class r =? 1) d)).
Proof.
  induction 1 as [|r d HE F IH]; [reflexivity|].
  rewrite map_cons, sumZ_cons, IH. cbn [filter].
  destruct HE as [E|E]; rewrite E; cbn [Z.eqb Pos.eqb List.length]; lia.
Qed.

(** With one site selected, the slices of the pie: one per class value
    among the rows of the site, sized by the number of those rows. *)
Lemma site_slices_spec d site :
  grouped_by class (fun _ => tt) series_size (fun r => Launch_Site r = site) d
    (aggregate sumZ
       (factorize (fun e : (string * Z) * Z => snd (fst e)) snd
          (class_counts (site_rows d (VStr site))))).
Proof.
  set (t := class_counts (site_rows d (VStr site))).
  assert (Ht : grouped_by (fun r => (Launch_Site r, class r)) (fun _ => tt)
                 series_size (fun r => Launch_Site r = site) d t).
  { apply aggregate_groupby_spec. intros r. rewrite value_eqb_eq.
    split; [intros E; now inversion E | now intros ->]. }
  assert (H2 : grouped_by (fun e : (string * Z) * Z => snd (fst e)) snd sumZ
                 (fun _ => True) t
                 (aggregate sumZ (factorize (fun e : (string * Z) * Z => snd (fst e)) snd t))).
  { rewrite <- (filter_all t) at 2. apply aggregate_factorize_spec. tauto. }
  destruct Ht as [NDt Ht]. destruct H2 as [ND2 H2].
  (* every entry of [t] carries the selected site *)
  assert (Hsite : forall k c w, In ((k, c), w) t -> k = site).
  { intros k c w Hin. apply Ht in Hin. destruct Hin as [out [S [Hne _]]].
    destruct out as [|r out]; [now elim Hne|].
    assert (Hr : In r (r :: out)) by now left.
    apply (selected_In _ _ _ S) in Hr. destruct Hr as [_ [E1 E2]].
    inversion E2; subst. reflexivity. }
  (* so the entries of one class value are at most one *)
  assert (Hone : forall c out2,
            selected (fun e : (string * Z) * Z => True /\ snd (fst e) = c) t out2 ->
            out2 = [] \/ exists w, out2 = [((site, c), w)]).
  { intros c out2 S2.
    destruct (NoDup_constant fst (site, c) out2) as [E|[[[k c'] w] E]].
    - now apply (selected_NoDup_map _ _ _ _ S2).
    - intros [[k c'] w] Hin. apply (selected_In _ _ _ S2) in Hin.
      destruct Hin as [Hin [_ Ec]]. simpl in *. subst c'.
      now rewrite (Hsite _ _ _ Hin).
    - now left.
    - right. exists w. subst out2.
      assert (Hin : In ((k, c'), w) [((k, c'), w)]) by now left.
      apply (selected_In _ _ _ S2) in Hin.
      destruct Hin as [Hin [_ Ec]]. simpl in *. subst c'.
      now rewrite (Hsite _ _ _ Hin). }
  split; [exact ND2|].
  intros c n. rewrite H2. split.
  - intros [out2 [S2 [Hne ->]]].
    destruct (Hone c out2 S2) as [E|[w E]]; [contradiction|]. subst out2.
    assert (Hin : In ((site, c), w) [((site, c), w)]) by now left.
    apply (selected_In _ _ _ S2) in Hin. destruct Hin as [Hin _].
    apply Ht in Hin. destruct Hin as [out [S [Hout ->]]].
    exists out. split; [|split; [assumption|]].
    + eapply selected_ext; [|exact S]. intros r. simpl.
      split; [intros [E1 E2]; inversion E2; auto | intros [-> ->]; auto].
    + unfold sumZ. simpl. reflexivity.
  - intros [out [S [Hout ->]]].
    assert (Hin : In ((site, c), series_size (map (fun _ => tt) out)) t).
    { apply Ht. exists out. split; [|auto].
      eapply selected_ext; [|exact S]. intros r. simpl.
      split; [intros [-> ->]; auto | intros [E1 E2]; inversion E2; auto]. }
    set (out2 := filter (fun e : (string * Z) * Z => snd (fst e) =? c) t).
    assert (S2 : selected (fun e : (string * Z) * Z => True /\ snd (fst e) = c) t out2).
    { apply selected_filter. intros e. rewrite Z.eqb_eq. tauto. }
    assert (Hin2 : In ((site, c), series_size (map (fun _ => tt) out)) out2).
    { apply (selected_In _ _ _ S2). auto. }
    exists out2. split; [exact S2|].
    destruct (Hone c out2 S2) as [E|[w E]]; rewrite E in *; [contradiction|].
    split; [discriminate|].
    destruct Hin2 as [E2|[]]. inversion E2; subst.
    unfold sumZ. simpl. reflexivity.
Qed.

End LaunchFacts.

Section LaunchClaims.

Import SpaceXLaunch.

Lemma CStr_eqb (a b : string) : cell_eqb (CStr a) (CStr b) = key_eqb a b.
Proof. reflexivity. Qed.

Lemma CInt_eqb (a b : Z) : cell_eqb (CInt a) (CInt b) = key_eqb a b.
Proof. reflexivity. Qed.

(** C4 as stated fails: with 'ALL' selected the slices are sums of the
    [class] flag, so a failed launch adds nothing; on the fixture (three
    launches, one failed) they add up to 2, not to the 3 rows. *)
Lemma C4_counterexample :
  exists ss,
    pie_slices (eval (get_pie_chart (VStr "ALL")) (startup launch_fixture)) = Some ss /\
    ss = [(CStr "CCAFS LC-40", CInt 1); (CStr "KSC LC-39A", CInt 1)] /\
    slices_total ss <> CInt (Z.of_nat (List.length (df (startup launch_fixture)))).
Proof.
  eexists. split; [reflexivity|]. split; [reflexivity|].
  vm_compute. discriminate.
Qed.

(** C4, amended. With 'ALL' selected the pie of [get_pie_chart] has one
    slice per launch site, sized by the sum of [class] over the launches of
    the site; the slices add up to the sum of [class] over the dataset,
    which for a 0/1 flag is the number of successful launches.  With one
    site selected the pie has one slice per class value among the launches
    of that site, sized by their number; the slices add up to the number of
    rows of that site. *)
Theorem C4_pie_chart_totals (s : server) :
  (exists t : list (string * Z),
     pie_slices (eval (get_pie_chart (VStr "ALL")) s) = Some (label_slices CStr t) /\
     grouped_by Launch_Site class sumZ (fun _ => True) (df s) t /\
     slices_total (label_slices CStr t) = CInt (sumZ (map class (df s))) /\
     (Forall (fun r => class r = 0 \/ class r = 1) (df s) ->
      forall ok, selected (fun r => class r = 1) (df s) ok ->
      slices_total (label_slices CStr t) = CInt (Z.of_nat (List.length ok)))) /\
  (forall site, site <> "ALL" ->
   exists (t : list (Z * Z)) (rows : DataFrame),
     pie_slices (eval (get_pie_chart (VStr site)) s) = Some (label_slices CInt t) /\
     grouped_by class (fun _ => tt) series_size (fun r => Launch_Site r = site) (df s) t /\
     selected (fun r => Launch_Site r = site) (df s) rows /\
     slices_total (label_slices CInt t) = CInt (Z.of_nat (List.length rows))).
Proof.
  split.
  - exists (aggregate sumZ (factorize Launch_Site class (df s))).
    assert (T : slices_total
                  (label_slices CStr (aggregate sumZ (factorize Launch_Site class (df s))))
                = CInt (sumZ (map class (df s)))).
    { rewrite <- (slices_of_rows CStr CStr_eqb Launch_Site class).
      apply (slices_of_rows_total CStr CStr_eqb). }
    split; [|split; [|split]].
    + unfold get_pie_chart, eval, bind, gets, ret. simpl.
      unfold pie_slices. simpl. f_equal.
      apply (slices_of_rows CStr CStr_eqb).
    + rewrite <- (filter_all (df s)) at 2.
      apply aggregate_factorize_spec. tauto.
    + exact T.
    + intros F ok S. rewrite T, (sum_flags _ F). do 3 f_equal.
      eapply selected_fun; [|exact S].
      apply selected_filter. intros r. apply Z.eqb_eq.
  - intros site Hsite.
    set (t := class_counts (site_rows (df s) (VStr site))).
    exists (aggregate sumZ (factorize (fun e : (string * Z) * Z => snd (fst e)) snd t)),
           (site_rows (df s) (VStr site)).
    assert (E : value_eqb (VStr site) (VStr "ALL") = false).
    { simpl. now apply String.eqb_neq. }
    split; [|split; [|split]].
    + unfold get_pie_chart, eval, bind, gets, ret. rewrite E.
      unfold pie_slices. simpl. f_equal. fold t.
      apply (slices_of_rows CInt CInt_eqb
               (fun e : (string * Z) * Z => snd (fst e)) snd).
    + apply site_slices_spec.
    + apply site_rows_selected.
    + rewrite <- (slices_of_rows CInt CInt_eqb
                    (fun e : (string * Z) * Z => snd (fst e)) snd).
      rewrite (slices_of_rows_total CInt CInt_eqb). f_equal.
      apply sizes_total.
Qed.

Lemma C4_pie_chart_totals_witness :
  (exists t : list (string * Z),
     pie_slices (eval (get_pie_chart (VStr "ALL")) (startup launch_fixture))
       = Some (label_slices CStr t) /\
     slices_total (label_slices CStr t) = CInt 2) /\
  (exists t : list (Z * Z),
     pie_slices (eval (get_pie_chart (VStr "CCAFS LC-40")) (startup launch_fixture))
       = Some (label_slices CInt t) /\
     slices_total (label_slices CInt t) = CInt 2).
Proof.
  destruct (C4_pie_chart_totals (startup launch_fixture)) as [A B]. split.
  - destruct A as (t & E & _ & _ & T). exists t. split; [exact E|].
    apply (T ltac:(simpl;
                   repeat (constructor;
                           [first [left; reflexivity | right; reflexivity]|]);
                   constructor)
             (filter (fun r => class r =? 1) launch_fixture)).
    simpl. select_rows.
  - destruct (B "CCAFS LC-40" ltac:(discriminate)) as (t & rows & E & _ & S & T).
    exists t. split; [exact E|]. rewrite T.
    rewrite (selected_fun _ _ _ _ S (site_rows_selected launch_fixture "CCAFS LC-40")).
    reflexivity.
Defined.

(** C5. For a slider range [lo, hi] the frame of the scatter figure is
    exactly the rows with lo <= PayloadMass <= hi (of the selected site when
    one is chosen), in dataset order; a row whose PayloadMass equals lo or
    equals hi is therefore in it: both bounds are inclusive. *)
Theorem C5_payload_range_inclusive (s : server) (site : value) (lo hi : Q) :
  exists fig rows,
    eval (get_scatter_chart site [Some lo; Some hi]) s = Some fig /\
    fig_frame fig = to_frame rows /\
    selected (fun r => (lo <= PayloadMass r)%Q /\ (PayloadMass r <= hi)%Q /\
                       (site = VStr "ALL" \/ VStr (Launch_Site r) = site))
      (df s) rows /\
    (forall r, In r (df s) -> (lo <= hi)%Q ->
       (PayloadMass r == lo)%Q \/ (PayloadMass r == hi)%Q ->
       site = VStr "ALL" \/ VStr (Launch_Site r) = site ->
       In r rows).
Proof.
  set (inside := fun r => ge_bound (PayloadMass r) (Some lo) &&
                          le_bound (PayloadMass r) (Some hi)).
  assert (Hin : forall r, inside r = true <->
                  (lo <= PayloadMass r)%Q /\ (PayloadMass r <= hi)%Q).
  { intros r. unfold inside. simpl. now rewrite andb_true_iff, !Qle_bool_iff. }
  assert (G : forall fig rows,
    eval (get_scatter_chart site [Some lo; Some hi]) s = Some fig ->
    fig_frame fig = to_frame rows ->
    selected (fun r => (lo <= PayloadMass r)%Q /\ (PayloadMass r <= hi)%Q /\
                       (site = VStr "ALL" \/ VStr (Launch_Site r) = site))
      (df s) rows ->
    exists fig rows,
      eval (get_scatter_chart site [Some lo; Some hi]) s = Some fig /\
      fig_frame fig = to_frame rows /\
      selected (fun r => (lo <= PayloadMass r)%Q /\ (PayloadMass r <= hi)%Q /\
                         (site = VStr "ALL" \/ VStr (Launch_Site r) = site))
        (df s) rows /\
      (forall r, In r (df s) -> (lo <= hi)%Q ->
         (PayloadMass r == lo)%Q \/ (PayloadMass r == hi)%Q ->
         site = VStr "ALL" \/ VStr (Launch_Site r) = site ->
         In r rows)).
  { intros fig rows E F S. exists fig, rows. repeat split; try assumption.
    intros r Hr Hle Hb Hs. apply (selected_In _ _ _ S). split; [assumption|].
    destruct Hb as [Hb|Hb]; rewrite Hb; repeat split; auto; apply Qle_refl. }
  destruct (value_eqb site (VStr "ALL")) eqn:E.
  - apply (G (restyle (px_scatter (to_frame (filter inside (df s)))
                         "PayloadMass" "class" "Booster Version Category"
                         "Payload vs. Launch Outcome for All Sites"))
             (filter inside (df s))).
    + unfold get_scatter_chart, eval, bind, gets, ret. simpl nth_error.
      cbv iota beta. rewrite E. reflexivity.
    + reflexivity.
    + apply selected_filter. intros r. rewrite Hin.
      apply value_eqb_eq in E. tauto.
  - apply (G (restyle (px_scatter
                         (to_frame (site_rows (filter inside (df s)) site))
                         "PayloadMass" "class" "Booster Version Category"
                         ("Payload vs. Launch Outcome for " ++ format_value site)%string))
             (site_rows (filter inside (df s)) site)).
    + unfold get_scatter_chart, eval, bind, gets, ret. simpl nth_error.
      cbv iota beta. rewrite E. reflexivity.
    + reflexivity.
    + unfold site_rows. rewrite filter_filter. apply selected_filter.
      intros r. rewrite andb_true_iff, Hin, value_eqb_eq.
      assert (site <> VStr "ALL").
      { intros C. apply value_eqb_eq in C. congruence. }
      tauto.
Qed.

Lemma C5_payload_range_inclusive_witness :
  exists fig rows,
    eval (get_scatter_chart (VStr "CCAFS LC-40") [Some (500 # 1)%Q; Some (3170 # 1)%Q])
      (startup launch_fixture) = Some fig /\
    fig_frame fig = to_frame rows /\
    In launch1 rows /\ In launch2 rows.
Proof.
  destruct (C5_payload_range_inclusive (startup launch_fixture)
              (VStr "CCAFS LC-40") (500 # 1)%Q (3170 # 1)%Q)
    as (fig & rows & E & F & _ & I).
  exists fig, rows. repeat split; try assumption.
  - apply I.
    + simpl. auto.
    + unfold Qle. simpl. lia.
    + left. reflexivity.
    + right. reflexivity.
  - apply I.
    + simpl. auto.
    + unfold Qle. simpl. lia.
    + right. reflexivity.
    + right. reflexivity.
Defined.

(** C6 as stated fails: the declared bounds of the payload slider are the
    constants 0 and 10000; on the fixture the dataset extremes are 500 and
    9600. *)
Lemma C6_counterexample :
  exists sl m M,
    sliders (app_layout (startup launch_fixture)) = [sl] /\
    min_payload (startup launch_fixture) = Some m /\
    max_payload (startup launch_fixture) = Some M /\
    ~ (rs_min sl == m)%Q /\ ~ (rs_max sl == M)%Q.
Proof.
  do 3 eexists. repeat split; try reflexivity.
  - unfold Qeq. simpl. lia.
  - unfold Qeq. simpl. lia.
Qed.

(** C6, amended. The layout declares one range slider, with min 0, max
    10000 and step 1000 whatever the dataset; the dataset's minimum and
    maximum PayloadMass, computed at start-up, are its initial value. *)
Theorem C6_slider_declared (csv : DataFrame) :
  exists sl,
    sliders (app_layout (startup csv)) = [sl] /\
    rs_min sl = inject_Z 0 /\ rs_max sl = inject_Z 10000 /\
    rs_step sl = inject_Z 1000 /\
    rs_value sl = [min_payload (startup csv); max_payload (startup csv)] /\
    match min_payload (startup csv) with
    | Some m => In m (map PayloadMass csv) /\
                Forall (fun r => (m <= PayloadMass r)%Q) csv
    | None => csv = []
    end /\
    match max_payload (startup csv) with
    | Some m => In m (map PayloadMass csv) /\
                Forall (fun r => (PayloadMass r <= m)%Q) csv
    | None => csv = []
    end.
Proof.
  eexists. split; [reflexivity|]. repeat (split; [reflexivity|]). simpl.
  split.
  - generalize (series_min_spec (map PayloadMass csv)).
    destruct (series_min (map PayloadMass csv)).
    + intros [Hin F]. split; [assumption|].
      rewrite Forall_forall in *. intros r Hr. apply F. now apply in_map.
    + apply map_eq_nil.
  - generalize (series_max_spec (map PayloadMass csv)).
    destruct (series_max (map PayloadMass csv)).
    + intros [Hin F]. split; [assumption|].
      rewrite Forall_forall in *. intros r Hr. apply F. now apply in_map.
    + apply map_eq_nil.
Qed.

End LaunchClaims.

(** ** Both dashboards: callbacks only read *)

(** C8. Every callback leaves the globals of its process (the dataset, the
    derived scalars, the declared layout) as they were, and so does any
    sequence of input changes; in particular the declared payload slider is
    the same after any session, and a change of the site leaves both the
    current payload range and the declared slider untouched. *)
Theorem C8_callbacks_read_only :
  (forall rt y, read_only (AutomobileSales.update_output rt y)) /\
  (forall rt, read_only (AutomobileSales.update_year_dropdown rt)) /\
  (forall site, read_only (SpaceXLaunch.get_pie_chart site)) /\
  (forall site range, read_only (SpaceXLaunch.get_scatter_chart site range)) /\
  (forall es, read_only (AutomobileSales.session es)) /\
  (forall es, read_only (SpaceXLaunch.session es)) /\
  (forall csv es,
     sliders (SpaceXLaunch.app_layout
                (exec (SpaceXLaunch.session es) (SpaceXLaunch.startup csv))) =
     sliders (SpaceXLaunch.app_layout (SpaceXLaunch.startup csv))) /\
  (forall s p v,
     SpaceXLaunch.payload_range
       (eval (SpaceXLaunch.on_event (SpaceXLaunch.SiteChanged v) p) s) =
     SpaceXLaunch.payload_range p /\
     exec (SpaceXLaunch.on_event (SpaceXLaunch.SiteChanged v) p) s = s).
Proof.
  split; [exact update_output_read_only|].
  split; [exact update_year_dropdown_read_only|].
  split; [exact get_pie_chart_read_only|].
  split; [exact get_scatter_chart_read_only|].
  split; [exact session_read_only|].
  split; [exact launch_session_read_only|].
  split.
  - intros csv es. now rewrite (launch_session_read_only es (SpaceXLaunch.startup csv)).
  - intros s p v. split; [|apply launch_on_event_read_only].
    simpl. unfold SpaceXLaunch.refresh.
    rewrite eval_bind_read_only by apply get_pie_chart_read_only.
    rewrite eval_bind_read_only by apply get_scatter_chart_read_only.
    reflexivity.
Qed.


(** ** The fixtures, evaluated *)

(** The module body does write the globals: [read_only] singles out the
    callbacks. *)
Lemma sales_module_body_writes :
  ~ read_only (AutomobileSales.module_body AutomobileSales.mixed_fixture).
Proof. intros RO. specialize (RO AutomobileSales.blank). discriminate RO. Qed.

Lemma launch_module_body_writes :
  ~ read_only (SpaceXLaunch.module_body SpaceXLaunch.launch_fixture).
Proof. intros RO. specialize (RO SpaceXLaunch.blank). discriminate RO. Qed.

Example startup_keeps_years (csv : AutomobileSales.DataFrame) :
  AutomobileSales.df (AutomobileSales.startup csv) = AutomobileSales.filter_years csv.
Proof. reflexivity. Qed.

(** The 1980 mean of the fixture, by hand: (456 + 555) / 2. *)
Example yearly_sales_fixture :
  AutomobileSales.yearly_sales AutomobileSales.mixed_fixture =
  [(1980, (1011 # 2)%Q); (1981, (620 # 1)%Q); (1982, (702 # 1)%Q)].
Proof. vm_compute. reflexivity. Qed.

(** Group keys come out sorted: "Feb" before "Jan". *)
Example monthly_sales_fixture :
  AutomobileSales.monthly_sales
    (AutomobileSales.year_rows AutomobileSales.mixed_fixture (VInt 1980)) =
  [("Feb", (555 # 1)%Q); ("Jan", (456 # 1)%Q)].
Proof. vm_compute. reflexivity. Qed.

Example recession_tables_fixture :
  AutomobileSales.avg_unemp_sales
    (AutomobileSales.recession_df AutomobileSales.mixed_fixture) =
  [("Sports", ((54 # 10)%Q, (456 # 1)%Q)); ("Supperminicar", ((34 # 10)%Q, (620 # 1)%Q))].
Proof. vm_compute. reflexivity. Qed.

Example yearly_titles_fixture :
  map fig_title
    (figures (eval (AutomobileSales.update_output (VStr "yearly") (VInt 1980))
                (AutomobileSales.startup AutomobileSales.mixed_fixture))) =
  [ "Average Automobile Sales per Year (1980-2013)";
    "Total Monthly Automobile Sales in 1980";
    "Average Vehicles Sold by Vehicle Type in 1980";
    "Total Advertising Expenditure by Vehicle Type in 1980" ].
Proof. vm_compute. reflexivity. Qed.

(** In yearly mode the year does matter. *)
Example yearly_depends_on_year :
  eval (AutomobileSales.update_output (VStr "yearly") (VInt 1980))
    (AutomobileSales.startup AutomobileSales.mixed_fixture) <>
  eval (AutomobileSales.update_output (VStr "yearly") (VInt 1981))
    (AutomobileSales.startup AutomobileSales.mixed_fixture).
Proof. vm_compute. discriminate. Qed.

Example year_control_after_toggle :
  AutomobileSales.year_disabled
    (eval (AutomobileSales.session
             [AutomobileSales.ReportTypeChanged (VStr "recession")])
       (AutomobileSales.startup AutomobileSales.mixed_fixture)) = true /\
  AutomobileSales.year_disabled
    (eval (AutomobileSales.session
             [AutomobileSales.ReportTypeChanged (VStr "recession");
              AutomobileSales.ReportTypeChanged (VStr "yearly")])
       (AutomobileSales.startup AutomobileSales.mixed_fixture)) = false.
Proof. split; vm_compute; reflexivity. Qed.

Example site_pie_fixture :
  pie_slices (eval (SpaceXLaunch.get_pie_chart (VStr "CCAFS LC-40"))
                (SpaceXLaunch.startup SpaceXLaunch.launch_fixture)) =
  Some [(CInt 0, CInt 1); (CInt 1, CInt 1)].
Proof. vm_compute. reflexivity. Qed.

Example scatter_needs_two_bounds :
  eval (SpaceXLaunch.get_scatter_chart (VStr "ALL") [Some (500 # 1)%Q])
    (SpaceXLaunch.startup SpaceXLaunch.launch_fixture) = None.
Proof. reflexivity. Qed.

Example slider_value_fixture :
  map rs_value
    (sliders (SpaceXLaunch.app_layout
                (SpaceXLaunch.startup SpaceXLaunch.launch_fixture))) =
  [[Some (500 # 1)%Q; Some (9600 # 1)%Q]].
Proof. vm_compute. reflexivity. Qed.

(** The controls that the sales layout declares, for any dataset. *)
Example sales_controls_declared (csv : AutomobileSales.DataFrame) :
  map (fun d => (dd_id d, dd_value d, dd_disabled d))
    (dropdowns (AutomobileSales.app_layout (AutomobileSales.startup csv))) =
  [ ("report-type", VStr "yearly", false); ("year-dropdown", VInt 1980, false) ].
Proof. reflexivity. Qed.

(** * Further properties of the two scripts *)

(** ** More about [groupby] *)

Lemma groupby_keys {R K V : Type} `{KeyLaws K} (key : R -> K) (col : R -> V)
  (rows : list R) (k : K) :
  In k (map fst (groupby key col rows)) <-> exists r, In r rows /\ key r = k.
Proof.
  rewrite in_map_iff. split.
  - intros [[k' vs] [E Hin]]. simpl in E. subst k'.
    apply groupby_In in Hin. destruct Hin as [Hne ->].
    destruct (filter (fun r => key_eqb k (key r)) rows) as [|r l] eqn:F;
      [now elim Hne|].
    assert (Hr : In r (filter (fun r => key_eqb k (key r)) rows))
      by (rewrite F; now left).
    apply filter_In in Hr. destruct Hr as [Hr Ek].
    exists r. split; [assumption|]. symmetry. now apply key_eqb_eq.
  - intros [r [Hr <-]].
    exists (key r, map col (filter (fun r' => key_eqb (key r) (key r')) rows)).
    split; [reflexivity|]. apply groupby_In. split; [|reflexivity].
    assert (Hin : In r (filter (fun r' => key_eqb (key r) (key r')) rows)).
    { apply filter_In. split; [assumption | apply key_eqb_refl]. }
    intros E. apply map_eq_nil in E. rewrite E in Hin. contradiction.
Qed.

Lemma groupby_nil {R K V : Type} `{KeyLaws K} (key : R -> K) (col : R -> V)
  (rows : list R) :
  groupby key col rows = [] <-> rows = [].
Proof.
  split.
  - intros E. destruct rows as [|r rows]; [reflexivity|].
    assert (Hin : In (key r) (map fst (groupby key col (r :: rows)))).
    { apply groupby_keys. exists r. split; [now left | reflexivity]. }
    rewrite E in Hin. contradiction.
  - intros ->. reflexivity.
Qed.

Lemma groupby_keys_sorted {R K V : Type} `{KeyLaws K} (key : R -> K) (col : R -> V)
  (rows : list R) :
  Sorted (fun a b => key_leb a b = true) (map fst (groupby key col rows)).
Proof.
  unfold groupby.
  generalize (sort_groups_sorted (factorize key col rows)).
  generalize (sort_groups (factorize key col rows)).
  induction 1 as [|g gs S IH Hd]; simpl; constructor; auto.
  destruct Hd; simpl; constructor; assumption.
Qed.

Lemma filter_none {R : Type} (p : R -> bool) (rows : list R) :
  filter p rows = [] <-> forall r, In r rows -> p r = false.
Proof.
  induction rows as [|r rows IH]; cbn [filter].
  - split; [intros _ r [] | reflexivity].
  - destruct (p r) eqn:E.
    + split; [discriminate|]. intros Hn.
      specialize (Hn r (or_introl eq_refl)). congruence.
    + rewrite IH. split.
      * intros Hn r' [<-|Hr']; auto.
      * intros Hn r' Hr'. apply Hn. now right.
Qed.

(** Sorted integer keys without repetition increase strictly. *)
Lemma sorted_strict (ys : list Z) :
  Sorted (fun a b => key_leb a b = true) ys -> NoDup ys -> Sorted Z.lt ys.
Proof.
  induction 1 as [|y ys S IH Hd]; intros ND; constructor.
  - apply IH. now inversion ND.
  - inversion ND as [|? ? Hnin _]; subst.
    destruct Hd as [|b l Hb]; constructor.
    simpl in Hb. apply Z.leb_le in Hb.
    assert (y <> b) by (intros ->; apply Hnin; now left). lia.
Qed.

(** [str] of an integer determines the integer. *)
Lemma str_Z_inj (a b : Z) : str_Z a = str_Z b -> a = b.
Proof.
  unfold str_Z. intros E.
  assert (P : forall z, NilZero.int_of_string (NilZero.string_of_int (Z.to_int z))
                        = Some (Z.to_int z)).
  { intros z. apply NilZero.isi; destruct z; simpl; try discriminate;
      intros C; inversion C as [C'];
      apply (f_equal Pos.of_uint) in C'; rewrite DecimalPos.Unsigned.of_to in C';
      discriminate. }
  assert (E' : Some (Z.to_int a) = Some (Z.to_int b)) by (rewrite <- !P; now rewrite E).
  inversion E' as [E'']. apply (f_equal Z.of_int) in E''.
  now rewrite !DecimalZ.of_to in E''.
Qed.

(** Checking a figure of known shape. *)
Ltac figure_ok_tac :=
  split;
  [ intros c Hc; simpl in Hc;
    repeat (destruct Hc as [Hc|Hc]; [subst c; simpl; discriminate|]);
    contradiction
  | eexists; intros name srs Hin; simpl in Hin;
    repeat (destruct Hin as [Hin|Hin];
            [inversion Hin; subst; rewrite ?length_map; reflexivity|]);
    contradiction ].

(** ** The automobile sales dashboard, further *)

Section SalesExtras.

Import AutomobileSales.

Lemma sorted_years_In (d : DataFrame) (y : Z) :
  In y (sorted_years d) <-> exists r, In r d /\ Year r = y.
Proof. apply groupby_keys. Qed.

Lemma sorted_years_strict (d : DataFrame) : Sorted Z.lt (sorted_years d).
Proof.
  apply sorted_strict; [apply groupby_keys_sorted | apply groupby_NoDup].
Qed.

(** X1. The options of the year dropdown are the distinct years of the
    retained dataset, each once, in strictly increasing order, all between
    1980 and 2013, each labelled by its decimal string; no two options share
    a label. *)
Theorem X1_year_options (csv : DataFrame) :
  exists ys : list Z,
    year_options (df (startup csv)) = map (fun y => (str_Z y, VInt y)) ys /\
    Sorted Z.lt ys /\
    (forall y, In y ys <->
               1980 <= y <= 2013 /\ exists r, In r csv /\ Year r = y) /\
    NoDup (map fst (year_options (df (startup csv)))).
Proof.
  exists (sorted_years (filter_years csv)).
  split; [reflexivity|]. split; [apply sorted_years_strict|]. split.
  - intros y. rewrite sorted_years_In. unfold filter_years. split.
    + intros [r [Hr E]]. apply filter_In in Hr. destruct Hr as [Hr B].
      apply andb_true_iff in B. rewrite !Z.leb_le in B. subst y. eauto.
    + intros [B [r [Hr E]]]. exists r. split; [|assumption].
      apply filter_In. split; [assumption|].
      rewrite andb_true_iff, !Z.leb_le. now rewrite E.
  - change (df (startup csv)) with (filter_years csv).
    unfold year_options. rewrite map_map. simpl.
    generalize (groupby_NoDup Year (fun _ : row => tt) (filter_years csv)).
    fold (sorted_years (filter_years csv)).
    induction 1 as [|y ys Hnin ND IH]; simpl; constructor; [|assumption].
    rewrite in_map_iff. intros [y' [E Hin]].
    apply str_Z_inj in E. now subst y'.
Qed.

(** X2. Whenever [update_year_dropdown] disables the year control (any
    report type other than 'yearly', such as the None of a cleared
    dropdown), [update_output] shows the recession statistics and ignores
    the selected year. *)
Theorem X2_disabled_year_is_ignored (s : server) (rt y1 y2 : value) :
  eval (update_year_dropdown rt) s = true ->
  eval (update_output rt y1) s = eval (update_output (VStr "recession") y2) s.
Proof.
  unfold update_year_dropdown, update_output, eval, bind, gets, ret.
  destruct (value_eqb rt (VStr "yearly")); simpl; [discriminate | reflexivity].
Qed.

Lemma X2_disabled_year_is_ignored_witness :
  eval (update_output VNone (VInt 1980)) (startup mixed_fixture) =
  eval (update_output (VStr "recession") (VInt 2000)) (startup mixed_fixture).
Proof.
  apply (X2_disabled_year_is_ignored (startup mixed_fixture) VNone
           (VInt 1980) (VInt 2000)).
  reflexivity.
Defined.

Lemma year_rows_nil (d : DataFrame) (y : value) :
  year_rows d y = [] <-> forall r, In r d -> VInt (Year r) <> y.
Proof.
  unfold year_rows. etransitivity; [apply filter_none|].
  split; intros Hn r Hr; specialize (Hn r Hr); cbv beta in *.
  - intros C. apply value_eqb_eq in C. congruence.
  - destruct (value_eqb (VInt (Year r)) y) eqn:E; [|reflexivity].
    apply value_eqb_eq in E. contradiction.
Qed.

(** X3. In yearly mode, a selected year without rows in the dataset (a
    year that is absent, or the None of a cleared dropdown) raises nothing:
    the monthly, per-type and advertising charts are drawn from empty
    frames, and the per-year chart is the same as for any other year. *)
Theorem X3_year_without_rows (s : server) (y : value) :
  (forall r, In r (df s) -> VInt (Year r) <> y) ->
  map fig_frame (figures (eval (update_output (VStr "yearly") y) s)) =
    [ reset_index "Year" CInt "Automobile_Sales" (yearly_sales (df s));
      [("Month", []); ("Automobile_Sales", [])];
      [("Vehicle_Type", []); ("Automobile_Sales", [])];
      [("Vehicle_Type", []); ("Advertising_Expenditure", [])] ].
Proof.
  intros Hn. apply year_rows_nil in Hn.
  unfold update_output, eval, bind, gets, ret. simpl.
  rewrite Hn. reflexivity.
Qed.

Lemma X3_year_without_rows_witness :
  map fig_frame
    (figures (eval (update_output (VStr "yearly") VNone) (startup mixed_fixture))) =
    [ reset_index "Year" CInt "Automobile_Sales"
        (yearly_sales (df (startup mixed_fixture)));
      [("Month", []); ("Automobile_Sales", [])];
      [("Vehicle_Type", []); ("Automobile_Sales", [])];
      [("Vehicle_Type", []); ("Advertising_Expenditure", [])] ].
Proof.
  apply (X3_year_without_rows (startup mixed_fixture) VNone).
  intros r _. discriminate.
Defined.

(** X4. Every year that the dropdown offers has rows: selecting it gives a
    non-empty monthly table, a non-empty per-type sales table and a
    non-empty per-type advertising table. *)
Theorem X4_offered_year_has_data (s : server) (l : string) (v : value) :
  In (l, v) (year_options (df s)) ->
  monthly_sales (year_rows (df s) v) <> [] /\
  avg_sales_by_type (year_rows (df s) v) <> [] /\
  ad_exp_by_type (year_rows (df s) v) <> [].
Proof.
  intros Hin. unfold year_options in Hin. apply in_map_iff in Hin.
  destruct Hin as [y [E Hy]]. inversion E; subst l v.
  apply sorted_years_In in Hy. destruct Hy as [r [Hr Ey]].
  assert (Hne : year_rows (df s) (VInt y) <> []).
  { intros C. apply (proj1 (year_rows_nil _ _) C r Hr). now rewrite Ey. }
  unfold monthly_sales, avg_sales_by_type, ad_exp_by_type, aggregate.
  repeat split; intros C; apply map_eq_nil in C; apply groupby_nil in C;
    contradiction.
Qed.

Lemma X4_offered_year_has_data_witness :
  monthly_sales (year_rows (df (startup mixed_fixture)) (VInt 1981)) <> [] /\
  avg_sales_by_type (year_rows (df (startup mixed_fixture)) (VInt 1981)) <> [] /\
  ad_exp_by_type (year_rows (df (startup mixed_fixture)) (VInt 1981)) <> [].
Proof.
  apply (X4_offered_year_has_data (startup mixed_fixture) "1981" (VInt 1981)).
  vm_compute. right. left. reflexivity.
Defined.

(** X5. In recession mode a dataset without any flagged row raises nothing:
    all four charts are drawn from empty frames. *)
Theorem X5_no_recession_rows (s : server) (y : value) :
  (forall r, In r (df s) -> Recession r <> 1) ->
  map fig_frame (figures (eval (update_output (VStr "recession") y) s)) =
    [ [("Year", []); ("Automobile_Sales", [])];
      [("Vehicle_Type", []); ("Automobile_Sales", [])];
      [("Vehicle_Type", []); ("Advertising_Expenditure", [])];
      [("Vehicle_Type", []); ("unemployment_rate", []); ("Automobile_Sales", [])] ].
Proof.
  intros Hn.
  assert (E : recession_df (df s) = []).
  { unfold recession_df. apply filter_none. intros r Hr.
    apply Z.eqb_neq. now apply Hn. }
  unfold update_output, eval, bind, gets, ret. simpl.
  rewrite E. reflexivity.
Qed.

Lemma X5_no_recession_rows_witness :
  map fig_frame
    (figures (eval (update_output (VStr "recession") (VInt 1980))
                (startup [feb80; mar82]))) =
    [ [("Year", []); ("Automobile_Sales", [])];
      [("Vehicle_Type", []); ("Automobile_Sales", [])];
      [("Vehicle_Type", []); ("Advertising_Expenditure", [])];
      [("Vehicle_Type", []); ("unemployment_rate", []); ("Automobile_Sales", [])] ].
Proof.
  apply (X5_no_recession_rows (startup [feb80; mar82]) (VInt 1980)).
  simpl. intros r [<-|[<-|[]]]; discriminate.
Defined.

Lemma sales_refresh_sync s p : sales_page_in_sync s (eval (refresh p) s).
Proof.
  unfold refresh.
  rewrite eval_bind_read_only by apply update_year_dropdown_read_only.
  rewrite eval_bind_read_only by apply update_output_read_only.
  split; reflexivity.
Qed.

Lemma sales_on_event_sync s e p :
  sales_page_in_sync s p -> sales_page_in_sync s (eval (on_event e p) s).
Proof.
  intros [D O]. destruct e as [v|y]; simpl.
  - apply sales_refresh_sync.
  - rewrite eval_bind_read_only by apply update_output_read_only.
    split; [exact D | reflexivity].
Qed.

Lemma sales_run_sync s es :
  forall p, sales_page_in_sync s p -> sales_page_in_sync s (eval (run es p) s).
Proof.
  induction es as [|e es IH]; intros p I; simpl; [exact I|].
  rewrite eval_bind_read_only by apply on_event_read_only.
  apply IH. now apply sales_on_event_sync.
Qed.

(** X6. After any sequence of changes of the two dropdowns, the page shows
    what the callbacks return for the values the dropdowns now hold: the
    year control is disabled as [update_year_dropdown] says for the current
    report type, and the output container holds [update_output] of the
    current report type and year. *)
Theorem X6_sales_page_in_sync (s : server) (es : list event) :
  sales_page_in_sync s (eval (session es) s).
Proof.
  unfold session.
  rewrite eval_bind_read_only by apply read_only_gets.
  rewrite eval_bind_read_only by apply refresh_read_only.
  apply sales_run_sync, sales_refresh_sync.
Qed.

(** X7. Whatever the report type and the year, every chart that
    [update_output] builds refers only to columns that its frame has, and
    the columns of the frame have one length: plotly is never handed a
    missing column. *)
Theorem X7_sales_figures_ok (s : server) (rt y : value) :
  List.length (figures (eval (update_output rt y) s)) = 4%nat /\
  Forall figure_ok (figures (eval (update_output rt y) s)).
Proof.
  unfold update_output, eval, bind, gets, ret.
  destruct (value_eqb rt (VStr "yearly")); simpl;
    (split; [reflexivity|]);
    repeat (apply Forall_cons; [figure_ok_tac|]); apply Forall_nil.
Qed.

(** X8. The per-year chart of the yearly mode has one point per year of the
    dataset, in strictly increasing order of the year. *)
Theorem X8_yearly_chart_years (s : server) (y : value) :
  exists (ys : list Z) (fig : figure) (rest : list figure),
    figures (eval (update_output (VStr "yearly") y) s) = fig :: rest /\
    column "Year" (fig_frame fig) = Some (map CInt ys) /\
    Sorted Z.lt ys /\
    (forall y', In y' ys <-> exists r, In r (df s) /\ Year r = y').
Proof.
  exists (map fst (groupby Year Automobile_Sales (df s))).
  do 2 eexists. split; [reflexivity|]. split; [|split].
  - simpl. unfold yearly_sales. f_equal.
    rewrite <- (aggregate_keys series_mean), map_map. reflexivity.
  - apply sorted_strict; [apply groupby_keys_sorted | apply groupby_NoDup].
  - intros y'. apply groupby_keys.
Qed.

End SalesExtras.

(** ** The SpaceX launch dashboard, further *)

Section LaunchExtras.

Import SpaceXLaunch.

Lemma filter_keep_all {R : Type} (p : R -> bool) (rows : list R) :
  (forall r, In r rows -> p r = true) -> filter p rows = rows.
Proof.
  induction rows as [|r rows IH]; intros Hp; cbn [filter]; [reflexivity|].
  rewrite (Hp r (or_introl eq_refl)). f_equal. apply IH.
  intros r' Hr'. apply Hp. now right.
Qed.

(** The frame that [get_scatter_chart] plots for a range of two bounds. *)
Lemma scatter_eval s site lo hi :
  exists fig,
    eval (get_scatter_chart site [lo; hi]) s = Some fig /\
    fig_frame fig =
      to_frame
        (if value_eqb site (VStr "ALL")
         then filter (fun r => ge_bound (PayloadMass r) lo && le_bound (PayloadMass r) hi)
                (df s)
         else site_rows
                (filter (fun r => ge_bound (PayloadMass r) lo && le_bound (PayloadMass r) hi)
                   (df s)) site).
Proof.
  unfold get_scatter_chart, eval, bind, gets, ret. cbn [nth_error].
  destruct (value_eqb site (VStr "ALL")); eexists; split; reflexivity.
Qed.

(** X9. [get_scatter_chart] fails exactly when the slider value has fewer
    than two entries (the indexing raises); entries after the second are
    never read. *)
Theorem X9_scatter_needs_two_bounds (s : server) (site : value) (range : list (option Q)) :
  (eval (get_scatter_chart site range) s = None <-> (List.length range < 2)%nat) /\
  (forall lo hi rest,
     eval (get_scatter_chart site (lo :: hi :: rest)) s =
     eval (get_scatter_chart site [lo; hi]) s).
Proof.
  split.
  - destruct range as [|lo [|hi rest]]; simpl.
    + split; [lia | reflexivity].
    + split; [lia | reflexivity].
    + unfold get_scatter_chart, eval, bind, gets, ret. cbn [nth_error].
      destruct (value_eqb site (VStr "ALL")); simpl; split; (discriminate || lia).
  - intros lo hi rest. reflexivity.
Qed.

(** X10. Narrowing the payload range re-filters what the wider range
    showed: for lo' <= lo and hi <= hi', the rows plotted for [lo, hi] are
    the rows plotted for [lo', hi'] whose payload lies in [lo, hi], in the
    same order, for 'ALL' as for one site. *)
Theorem X10_narrower_range_refilters (s : server) (site : value) (lo hi lo' hi' : Q) :
  (lo' <= lo)%Q -> (hi <= hi')%Q ->
  exists fig fig' rows',
    eval (get_scatter_chart site [Some lo'; Some hi']) s = Some fig' /\
    fig_frame fig' = to_frame rows' /\
    eval (get_scatter_chart site [Some lo; Some hi]) s = Some fig /\
    fig_frame fig =
      to_frame (filter (fun r => Qle_bool lo (PayloadMass r) && Qle_bool (PayloadMass r) hi)
                  rows').
Proof.
  intros Hlo Hhi.
  destruct (scatter_eval s site (Some lo) (Some hi)) as (fig & E & F).
  destruct (scatter_eval s site (Some lo') (Some hi')) as (fig' & E' & F').
  exists fig, fig'. eexists. split; [exact E'|]. split; [exact F'|].
  split; [exact E|]. rewrite F. f_equal.
  assert (N : forall r,
    (Qle_bool lo' (PayloadMass r) && Qle_bool (PayloadMass r) hi') &&
    (Qle_bool lo (PayloadMass r) && Qle_bool (PayloadMass r) hi) =
    Qle_bool lo (PayloadMass r) && Qle_bool (PayloadMass r) hi).
  { intros r.
    destruct (Qle_bool lo (PayloadMass r)) eqn:A, (Qle_bool (PayloadMass r) hi) eqn:B;
      rewrite ?andb_false_r; try reflexivity.
    apply Qle_bool_iff in A, B.
    assert (A' : Qle_bool lo' (PayloadMass r) = true)
      by (apply Qle_bool_iff; eapply Qle_trans; eassumption).
    assert (B' : Qle_bool (PayloadMass r) hi' = true)
      by (apply Qle_bool_iff; eapply Qle_trans; eassumption).
    now rewrite A', B'. }
  simpl ge_bound. simpl le_bound.
  destruct (value_eqb site (VStr "ALL")).
  - rewrite filter_filter. symmetry. now apply filter_ext.
  - unfold site_rows. rewrite !filter_filter. apply filter_ext.
    intros r. specialize (N r).
    destruct (Qle_bool lo' (PayloadMass r)), (Qle_bool (PayloadMass r) hi'),
      (Qle_bool lo (PayloadMass r)), (Qle_bool (PayloadMass r) hi),
      (value_eqb (VStr (Launch_Site r)) site); simpl in *; congruence.
Qed.

Lemma X10_narrower_range_refilters_witness :
  exists fig fig' rows',
    eval (get_scatter_chart (VStr "ALL") [Some (0 # 1)%Q; Some (10000 # 1)%Q])
      (startup launch_fixture) = Some fig' /\
    fig_frame fig' = to_frame rows' /\
    eval (get_scatter_chart (VStr "ALL") [Some (500 # 1)%Q; Some (3170 # 1)%Q])
      (startup launch_fixture) = Some fig /\
    fig_frame fig =
      to_frame (filter (fun r => Qle_bool (500 # 1) (PayloadMass r) &&
                                 Qle_bool (PayloadMass r) (3170 # 1)) rows').
Proof.
  apply (X10_narrower_range_refilters (startup launch_fixture) (VStr "ALL")
           (500 # 1)%Q (3170 # 1)%Q (0 # 1)%Q (10000 # 1)%Q);
    unfold Qle; simpl; lia.
Defined.

(** X11. On page load the slider holds the dataset's minimum and maximum
    payload and the site is 'ALL': the scatter chart then plots every row of
    the dataset (none when the dataset is empty). *)
Theorem X11_page_load_plots_all (csv : DataFrame) :
  exists fig,
    scatter_figure (eval (session []) (startup csv)) = Some fig /\
    fig_frame fig = to_frame csv.
Proof.
  unfold session.
  rewrite !(eval_bind_read_only (gets _)) by apply read_only_gets.
  rewrite eval_bind_read_only by apply launch_refresh_read_only.
  unfold refresh.
  rewrite eval_bind_read_only by apply get_pie_chart_read_only.
  rewrite eval_bind_read_only by apply get_scatter_chart_read_only.
  cbn [run ret eval fst scatter_figure declared_page entered_site payload_range
       payload_slider rs_value site_dropdown dd_value].
  destruct (scatter_eval (startup csv) (VStr "ALL")
              (eval (gets min_payload) (startup csv))
              (eval (gets max_payload) (startup csv))) as (fig & E & F).
  rewrite E. exists fig. split; [reflexivity|]. rewrite F.
  cbn [value_eqb String.eqb Ascii.eqb Bool.eqb]. f_equal.
  change (df (startup csv)) with csv.
  change (eval (gets min_payload) (startup csv)) with (series_min (map PayloadMass csv)).
  change (eval (gets max_payload) (startup csv)) with (series_max (map PayloadMass csv)).
  apply filter_keep_all. intros r Hr.
  generalize (series_min_spec (map PayloadMass csv)).
  generalize (series_max_spec (map PayloadMass csv)).
  destruct (series_max (map PayloadMass csv)) as [mx|];
    [|intros C; apply map_eq_nil in C; subst csv; contradiction].
  destruct (series_min (map PayloadMass csv)) as [mn|];
    [|intros _ C; apply map_eq_nil in C; subst csv; contradiction].
  intros [_ Fmx] [_ Fmn]. rewrite Forall_forall in Fmx, Fmn.
  simpl. apply andb_true_iff. rewrite !Qle_bool_iff.
  split; [apply Fmn | apply Fmx]; now apply in_map.
Qed.

(** X12. A range whose upper bound is below its lower bound, or one of whose
    bounds is NaN, plots nothing, and raises nothing. *)
Theorem X12_empty_ranges (s : server) (site : value) :
  (forall lo hi, (hi < lo)%Q ->
     exists fig, eval (get_scatter_chart site [Some lo; Some hi]) s = Some fig /\
                 fig_frame fig = to_frame []) /\
  (forall b, exists fig, eval (get_scatter_chart site [None; b]) s = Some fig /\
                         fig_frame fig = to_frame []) /\
  (forall b, exists fig, eval (get_scatter_chart site [b; None]) s = Some fig /\
                         fig_frame fig = to_frame []).
Proof.
  assert (G : forall lo hi,
    (forall r, ge_bound (PayloadMass r) lo && le_bound (PayloadMass r) hi = false) ->
    exists fig, eval (get_scatter_chart site [lo; hi]) s = Some fig /\
                fig_frame fig = to_frame []).
  { intros lo hi Hn.
    destruct (scatter_eval s site lo hi) as (fig & E & F).
    exists fig. split; [exact E|]. rewrite F.
    assert (Z : filter (fun r => ge_bound (PayloadMass r) lo && le_bound (PayloadMass r) hi)
                  (df s) = []) by (apply filter_none; intros r _; apply Hn).
    rewrite Z. now destruct (value_eqb site (VStr "ALL")). }
  split; [|split].
  - intros lo hi Hlt. apply G. intros r. simpl.
    destruct (Qle_bool lo (PayloadMass r)) eqn:A, (Qle_bool (PayloadMass r) hi) eqn:B;
      try reflexivity.
    apply Qle_bool_iff in A, B. exfalso.
    apply (Qlt_not_le _ _ Hlt). eapply Qle_trans; eassumption.
  - intros b. apply G. reflexivity.
  - intros b. apply G. intros r. simpl. apply andb_false_r.
Qed.

Lemma X12_empty_ranges_witness :
  exists fig,
    eval (get_scatter_chart (VStr "ALL") [Some (9000 # 1)%Q; Some (1000 # 1)%Q])
      (startup launch_fixture) = Some fig /\
    fig_frame fig = to_frame [].
Proof.
  apply (proj1 (X12_empty_ranges (startup launch_fixture) (VStr "ALL"))).
  unfold Qlt. simpl. lia.
Defined.

Lemma launch_CStr_eqb (a b : string) : cell_eqb (CStr a) (CStr b) = key_eqb a b.
Proof. reflexivity. Qed.

Lemma launch_CInt_eqb (a b : Z) : cell_eqb (CInt a) (CInt b) = key_eqb a b.
Proof. reflexivity. Qed.

(** With a value other than 'ALL' the pie is drawn from the class counts of
    the matching rows, and its slices add up to their number. *)
Lemma pie_of_selection s v :
  value_eqb v (VStr "ALL") = false ->
  fig_frame (eval (get_pie_chart v) s) =
    counts_frame (class_counts (site_rows (df s) v)) /\
  exists ss,
    pie_slices (eval (get_pie_chart v) s) = Some ss /\
    slices_total ss = CInt (Z.of_nat (List.length (site_rows (df s) v))).
Proof.
  intros E. unfold get_pie_chart, eval, bind, gets, ret. rewrite E.
  split; [reflexivity|]. eexists. split.
  - unfold pie_slices. simpl. reflexivity.
  - rewrite (slices_of_rows_total CInt launch_CInt_eqb
               (fun e : (string * Z) * Z => snd (fst e)) snd).
    f_equal. apply sizes_total.
Qed.

(** X13. With one site selected on page load (the slider at the dataset's
    minimum and maximum), the scatter chart plots exactly the launches of
    that site, and the slices of the pie chart add up to the number of
    points plotted. *)
Theorem X13_site_charts_agree (csv : DataFrame) (site : string) :
  site <> "ALL" ->
  exists fig rows ss,
    eval (get_scatter_chart (VStr site)
            [min_payload (startup csv); max_payload (startup csv)]) (startup csv)
      = Some fig /\
    fig_frame fig = to_frame rows /\
    selected (fun r => Launch_Site r = site) csv rows /\
    pie_slices (eval (get_pie_chart (VStr site)) (startup csv)) = Some ss /\
    slices_total ss = CInt (Z.of_nat (List.length rows)).
Proof.
  intros Hsite.
  assert (E : value_eqb (VStr site) (VStr "ALL") = false).
  { simpl. now apply String.eqb_neq. }
  destruct (scatter_eval (startup csv) (VStr site)
              (min_payload (startup csv)) (max_payload (startup csv)))
    as (fig & Ef & F).
  destruct (pie_of_selection (startup csv) (VStr site) E) as (_ & ss & Ep & T).
  exists fig, (site_rows csv (VStr site)), ss.
  split; [exact Ef|]. split; [|split; [apply site_rows_selected|split; assumption]].
  rewrite F, E. do 2 f_equal.
  change (df (startup csv)) with csv.
  change (min_payload (startup csv)) with (series_min (map PayloadMass csv)).
  change (max_payload (startup csv)) with (series_max (map PayloadMass csv)).
  apply filter_keep_all. intros r Hr.
  generalize (series_min_spec (map PayloadMass csv)).
  generalize (series_max_spec (map PayloadMass csv)).
  destruct (series_max (map PayloadMass csv)) as [mx|];
    [|intros C; apply map_eq_nil in C; subst csv; contradiction].
  destruct (series_min (map PayloadMass csv)) as [mn|];
    [|intros _ C; apply map_eq_nil in C; subst csv; contradiction].
  intros [_ Fmx] [_ Fmn]. rewrite Forall_forall in Fmx, Fmn.
  simpl. apply andb_true_iff. rewrite !Qle_bool_iff.
  split; [apply Fmn | apply Fmx]; now apply in_map.
Qed.

Lemma X13_site_charts_agree_witness :
  exists fig rows ss,
    eval (get_scatter_chart (VStr "CCAFS LC-40")
            [min_payload (startup launch_fixture); max_payload (startup launch_fixture)])
      (startup launch_fixture) = Some fig /\
    fig_frame fig = to_frame rows /\
    selected (fun r => Launch_Site r = "CCAFS LC-40") launch_fixture rows /\
    pie_slices (eval (get_pie_chart (VStr "CCAFS LC-40")) (startup launch_fixture))
      = Some ss /\
    slices_total ss = CInt (Z.of_nat (List.length rows)).
Proof.
  apply (X13_site_charts_agree launch_fixture "CCAFS LC-40"). discriminate.
Defined.

(** X14. A site value that matches no row (an unknown site, or the None of
    a cleared dropdown) raises nothing: the pie is drawn from an empty
    frame and has no slice. *)
Theorem X14_pie_without_rows (s : server) (v : value) :
  v <> VStr "ALL" ->
  (forall r, In r (df s) -> VStr (Launch_Site r) <> v) ->
  fig_frame (eval (get_pie_chart v) s) =
    [("Launch Site", []); ("class", []); ("class count", [])] /\
  pie_slices (eval (get_pie_chart v) s) = Some [].
Proof.
  intros Hv Hn.
  assert (E : value_eqb v (VStr "ALL") = false).
  { destruct (value_eqb v (VStr "ALL")) eqn:B; [|reflexivity].
    apply value_eqb_eq in B. contradiction. }
  assert (Z : site_rows (df s) v = []).
  { unfold site_rows. apply filter_none. intros r Hr.
    destruct (value_eqb (VStr (Launch_Site r)) v) eqn:B; [|reflexivity].
    apply value_eqb_eq in B. now apply Hn in B. }
  unfold get_pie_chart, eval, bind, gets, ret. rewrite E.
  unfold pie_slices. simpl. rewrite Z. split; reflexivity.
Qed.

Lemma X14_pie_without_rows_witness :
  fig_frame (eval (get_pie_chart VNone) (startup launch_fixture)) =
    [("Launch Site", []); ("class", []); ("class count", [])] /\
  pie_slices (eval (get_pie_chart VNone) (startup launch_fixture)) = Some [].
Proof.
  apply (X14_pie_without_rows (startup launch_fixture) VNone).
  - discriminate.
  - intros r _. discriminate.
Defined.

(** X15. Every chart that the two launch callbacks build refers only to
    columns that its frame has, and the columns of the frame have one
    length. *)
Theorem X15_launch_figures_ok (s : server) (v : value) (range : list (option Q)) :
  figure_ok (eval (get_pie_chart v) s) /\
  match eval (get_scatter_chart v range) s with
  | Some fig => figure_ok fig
  | None => True
  end.
Proof.
  split.
  - unfold get_pie_chart, eval, bind, gets, ret.
    destruct (value_eqb v (VStr "ALL")); simpl; figure_ok_tac.
  - unfold get_scatter_chart, eval, bind, gets, ret.
    destruct (nth_error range 0), (nth_error range 1); simpl; trivial.
    destruct (value_eqb v (VStr "ALL")); simpl; figure_ok_tac.
Qed.

Lemma launch_refresh_sync s p : launch_page_in_sync s (eval (refresh p) s).
Proof.
  unfold refresh.
  rewrite eval_bind_read_only by apply get_pie_chart_read_only.
  rewrite eval_bind_read_only by apply get_scatter_chart_read_only.
  split; [reflexivity|]. cbn [ret eval fst entered_site payload_range scatter_figure].
  destruct (eval (get_scatter_chart (entered_site p) (payload_range p)) s);
    [reflexivity | exact I].
Qed.

Lemma launch_on_event_sync s e p :
  launch_page_in_sync s p -> launch_page_in_sync s (eval (on_event e p) s).
Proof.
  intros [Pie Sc]. destruct e as [v|range]; simpl.
  - apply launch_refresh_sync.
  - rewrite eval_bind_read_only by apply get_scatter_chart_read_only.
    split; [exact Pie|].
    cbn [ret eval fst entered_site payload_range scatter_figure].
    destruct (eval (get_scatter_chart (entered_site p) range) s);
      [reflexivity | exact I].
Qed.

Lemma launch_run_sync s es :
  forall p, launch_page_in_sync s p -> launch_page_in_sync s (eval (run es p) s).
Proof.
  induction es as [|e es IH]; intros p Hp; simpl; [exact Hp|].
  rewrite eval_bind_read_only by apply launch_on_event_read_only.
  apply IH. now apply launch_on_event_sync.
Qed.

(** X16. After any sequence of changes of the site dropdown and the payload
    slider, the page shows the pie chart of the current site, and the
    scatter chart of the current site and range whenever
    [get_scatter_chart] has a result for them. *)
Theorem X16_launch_page_in_sync (s : server) (es : list event) :
  launch_page_in_sync s (eval (session es) s).
Proof.
  unfold session.
  rewrite !(eval_bind_read_only (gets _)) by apply read_only_gets.
  rewrite eval_bind_read_only by apply launch_refresh_read_only.
  apply launch_run_sync, launch_refresh_sync.
Qed.



End LaunchExtras.
